(** * Sollumz [cwxml/shader.py]: the shader catalogue and its lookups

    A shallow embedding of [RenderBucketProperty], [Shader] and
    [ShaderManager] with the Python built-ins they rely on ([str.strip],
    [str.split], [int], [xml.etree.ElementTree] path queries), followed by
    the properties of the catalogue established on that embedding.

    Conventions.
    - A Python [str] is a [string]; a character is the code point
      U+0000..U+00FF carried by an [ascii].
    - A Python [int] is a [Z].
    - A call that may raise returns a [result]; [Raise e] is the exception.
    - A [Shader] object lives in a store ([objects]); a reference to it is
      its index there, so that object identity is index equality. *)

From Stdlib Require Import ZArith String Ascii List Lia.
From stdpp Require Import base option list gmap strings.

Local Open Scope Z_scope.

(** ** Exceptions *)

Inductive exn : Type :=
| ValueError
| AttributeError
| KeyError
| TypeError.

Inductive result (A : Type) : Type :=
| OK (a : A)
| Raise (e : exn).
Arguments OK {A} a.
Arguments Raise {A} e.

#[export] Instance result_ret : MRet result := fun A a => OK a.
#[export] Instance result_bind : MBind result := fun A B f m =>
  match m with
  | OK a => f a
  | Raise e => Raise e
  end.

#[export] Instance result_fmap : FMap result := fun A B f m =>
  match m with
  | OK a => OK (f a)
  | Raise e => Raise e
  end.

(** A [for] loop whose body may raise. *)
Fixpoint for_each {S A : Type} (body : S -> A -> result S) (st : S) (xs : list A)
  : result S :=
  match xs with
  | [] => OK st
  | x :: xs' => st' ← body st x; for_each body st' xs'
  end.

(** ** Python string built-ins *)

Module PyStr.

Definition ord (c : ascii) : Z := Z.of_N (N_of_ascii c).

Definition between (lo hi n : Z) : bool := (lo <=? n) && (n <=? hi).

(** [str.isspace] on one character (code points below 256). *)
Definition isspace (c : ascii) : bool :=
  let n := ord c in
  between 9 13 n || between 28 31 n || (n =? 32) || (n =? 133) || (n =? 160).

Fixpoint lstrip (s : string) : string :=
  match s with
  | EmptyString => EmptyString
  | String c s' => if isspace c then lstrip s' else s
  end.

Fixpoint rstrip (s : string) : string :=
  match s with
  | EmptyString => EmptyString
  | String c s' =>
      match rstrip s' with
      | EmptyString => if isspace c then EmptyString else String c EmptyString
      | r => String c r
      end
  end.

(** [s.strip()] *)
Definition strip (s : string) : string := rstrip (lstrip s).

(** [s.split(sep)] for a one-character separator. *)
Fixpoint split (sep : ascii) (s : string) : list string :=
  match s with
  | EmptyString => [EmptyString]
  | String c s' =>
      if Ascii.eqb c sep then EmptyString :: split sep s'
      else match split sep s' with
           | h :: t => String c h :: t
           | [] => [String c EmptyString]
           end
  end.

(** [sep.join(items)] for string items. *)
Fixpoint join (sep : string) (items : list string) : string :=
  match items with
  | [] => EmptyString
  | [x] => x
  | x :: rest => x +:+ sep +:+ join sep rest
  end.

(** [s.startswith(p)] *)
Definition startswith (s p : string) : bool := String.prefix p s.

(** [s[n:]] *)
Fixpoint slice_from (n : nat) (s : string) : string :=
  match n, s with
  | O, _ => s
  | S n', String _ s' => slice_from n' s'
  | S _, EmptyString => EmptyString
  end.

(** *** [int(s, base)] on a string, for a base between 2 and 36 *)

(** Value of a character as a digit ([_PyLong_DigitValue]). *)
Definition digit_value (c : ascii) : option Z :=
  let n := ord c in
  if between 48 57 n then Some (n - 48)
  else if between 97 122 n then Some (n - 87)
  else if between 65 90 n then Some (n - 55)
  else None.

(** White space skipped around the literal ([Py_ISSPACE]). *)
Definition Py_ISSPACE (c : ascii) : bool :=
  let n := ord c in between 9 13 n || (n =? 32).

Fixpoint is_ascii (s : string) : bool :=
  match s with
  | EmptyString => true
  | String c s' => (ord c <? 128) && is_ascii s'
  end.

(** Non-ASCII strings are first rewritten: white space becomes a blank,
    and the text is cut at the first other character from 127 upwards,
    which is replaced by a question mark. *)
Fixpoint transform_spaces (s : string) : string :=
  match s with
  | EmptyString => EmptyString
  | String c s' =>
      if ord c <? 127 then String c (transform_spaces s')
      else if isspace c then String " " (transform_spaces s')
      else String "?" EmptyString
  end.

Definition to_ascii_literal (s : string) : string :=
  if is_ascii s then s else transform_spaces s.

Fixpoint skip_spaces (s : string) : string :=
  match s with
  | EmptyString => EmptyString
  | String c s' => if Py_ISSPACE c then skip_spaces s' else s
  end.

Definition parse_sign (s : string) : bool * string :=
  match s with
  | String c s' =>
      if Ascii.eqb c "+" then (false, s')
      else if Ascii.eqb c "-" then (true, s')
      else (false, s)
  | EmptyString => (false, s)
  end.

Definition is_base_letter (base : Z) (c : ascii) : bool :=
  ((base =? 16) && (Ascii.eqb c "x" || Ascii.eqb c "X"))
  || ((base =? 8) && (Ascii.eqb c "o" || Ascii.eqb c "O"))
  || ((base =? 2) && (Ascii.eqb c "b" || Ascii.eqb c "B")).

Definition skip_underscore (s : string) : string :=
  match s with
  | String c s' => if Ascii.eqb c "_" then s' else s
  | EmptyString => s
  end.

(** A base prefix matching the base is skipped, with one underscore
    after it. *)
Definition skip_base_prefix (base : Z) (s : string) : string :=
  match s with
  | String c0 (String c s') =>
      if Ascii.eqb c0 "0" && is_base_letter base c then skip_underscore s' else s
  | _ => s
  end.

Definition starts_with_underscore (s : string) : bool :=
  match s with
  | String c _ => Ascii.eqb c "_"
  | EmptyString => false
  end.

(** The digit loop: digits below the base with single underscores
    between them.  Returns the value, the number of digits and the
    unread rest. *)
Fixpoint scan_digits (base : Z) (s : string) (prev_us : bool) (ndigits : nat)
    (acc : Z) : option (Z * nat * string) :=
  let stop := if prev_us then None else Some (acc, ndigits, s) in
  match s with
  | EmptyString => stop
  | String c s' =>
      if Ascii.eqb c "_" then
        if prev_us then None else scan_digits base s' true ndigits acc
      else
        match digit_value c with
        | Some d =>
            if d <? base then scan_digits base s' false (S ndigits) (acc * base + d)
            else stop
        | None => stop
        end
  end.

(** Default of [sys.get_int_max_str_digits()]. *)
Definition int_max_str_digits : nat := 4300.

Definition is_power_of_two (base : Z) : bool := Z.land base (base - 1) =? 0.

Definition int (s : string) (base : Z) : result Z :=
  let s1 := skip_spaces (to_ascii_literal s) in
  let '(neg, s2) := parse_sign s1 in
  let s3 := skip_base_prefix base s2 in
  if starts_with_underscore s3 then Raise ValueError
  else
    match scan_digits base s3 false 0 0 with
    | None => Raise ValueError
    | Some (v, n, rest) =>
        if (n =? 0)%nat then Raise ValueError
        else if negb (is_power_of_two base) && (int_max_str_digits <? n)%nat
        then Raise ValueError
        else
          match skip_spaces rest with
          | EmptyString => OK (if neg then - v else v)
          | _ => Raise ValueError
          end
    end.

(** *** Rendering of integers: [str(n)] and [format(n, "08x")] *)

Definition digit_char (d : Z) : ascii :=
  ascii_of_N (Z.to_N (if d <? 10 then 48 + d else 87 + d)).

(** Digits of a non-negative number, least significant first. *)
Fixpoint to_digits (fuel : nat) (base n : Z) : list Z :=
  match fuel with
  | O => []
  | S fuel' =>
      (n mod base) :: (if n <? base then [] else to_digits fuel' base (n / base))
  end.

(** Value of a digit list, most significant first, after [acc]. *)
Definition horner (base : Z) (ds : list Z) (acc : Z) : Z :=
  fold_left (fun a d => a * base + d) ds acc.

Definition digits_string (ds : list Z) : string :=
  string_of_list_ascii (map digit_char ds).

Definition digits_of (base n : Z) : list Z :=
  rev (to_digits (S (Z.to_nat (Z.log2 n))) base n).

(** [str(z)] *)
Definition str_int (z : Z) : string :=
  if z <? 0 then String "-" (digits_string (digits_of 10 (- z)))
  else digits_string (digits_of 10 z).

(** Number of decimal digits of [z]. *)
Definition decimal_digits (z : Z) : nat := length (digits_of 10 (Z.abs z)).

Definition zero_fill (width : nat) (ds : list Z) : list Z :=
  (repeat 0 (width - length ds) ++ ds)%list.

(** [format(z, "08x")]: lower-case hexadecimal, filled with zeros to eight
    characters, the sign included. *)
Definition format_08x (z : Z) : string :=
  if z <? 0 then String "-" (digits_string (zero_fill 7 (digits_of 16 (- z))))
  else digits_string (zero_fill 8 (digits_of 16 z)).

(** [s.lower()] on one character. *)
Definition lower_char (c : ascii) : ascii :=
  let n := ord c in
  if between 65 90 n || (between 192 222 n && negb (n =? 215))
  then ascii_of_N (Z.to_N (n + 32)) else c.

(** [s.encode("utf-8")] for code points below 256. *)
Fixpoint encode_utf8 (s : string) : list Z :=
  match s with
  | EmptyString => []
  | String c s' =>
      let n := ord c in
      if n <? 128 then n :: encode_utf8 s'
      else Z.lor 192 (Z.shiftr n 6) :: Z.lor 128 (Z.land n 63) :: encode_utf8 s'
  end.

Fixpoint lower (s : string) : string :=
  match s with
  | EmptyString => EmptyString
  | String c s' => String (lower_char c) (lower s')
  end.

End PyStr.

(** ** [xml.etree.ElementTree] *)

(** An element as the parser builds it: tag, attributes, text before the
    first child, text after the end tag, and the child elements. *)
#[warnings="-register-all"] Inductive Element : Type :=
  mkElement (tag : string) (attrib : list (string * string))
            (text tail : option string) (children : list Element).

Definition tag (e : Element) : string :=
  match e with mkElement t _ _ _ _ => t end.
Definition attrib (e : Element) : list (string * string) :=
  match e with mkElement _ a _ _ _ => a end.
Definition text (e : Element) : option string :=
  match e with mkElement _ _ x _ _ => x end.
Definition tail (e : Element) : option string :=
  match e with mkElement _ _ _ x _ => x end.
Definition children (e : Element) : list Element :=
  match e with mkElement _ _ _ _ cs => cs end.

Module ET.

(** [Element.iter()]: the element, then its subtree in document order. *)
Fixpoint iter (e : Element) : list Element :=
  match e with
  | mkElement _ _ _ _ cs => e :: flat_map iter cs
  end.

(** [Element.find(tag)] for a plain tag: the first child with it. *)
Definition find (tag_name : string) (e : Element) : option Element :=
  List.find (fun c => String.eqb (tag c) tag_name) (children e).

(** The steps of a path, each from a list of elements to a list. *)
Definition select_child (tag_name : string) (ctx : list Element) : list Element :=
  flat_map (fun e => List.filter (fun c => String.eqb (tag c) tag_name) (children e)) ctx.

(** The step [//*]: every element below, the context element excluded. *)
Definition select_descendant_any (ctx : list Element) : list Element :=
  flat_map (fun e => List.tl (iter e)) ctx.

(** [Element.findall("./" + tag_name + "//*")] *)
Definition findall_below_child (tag_name : string) (e : Element) : list Element :=
  select_descendant_any (select_child tag_name [e]).

(** [Element.get(key, default)] *)
Definition get (key default : string) (e : Element) : string :=
  match List.find (fun kv => String.eqb (fst kv) key) (attrib e) with
  | Some kv => snd kv
  | None => default
  end.

End ET.

(** ** [RenderBucketProperty] *)

Definition RenderBucketProperty_from_xml (element : Element) : result (list Z) :=
  match text element with
  | None => Raise AttributeError
  | Some t =>
      let items := PyStr.split " " (PyStr.strip t) in
      for_each (fun value item => n ← PyStr.int item 10; OK (value ++ [n])%list) [] items
  end.

(** [to_xml] joins the integers of [value] with a blank, which raises on
    the first integer, and has no [return]: with an empty [value] the element
    it built is dropped and the call yields [None]. *)
Definition RenderBucketProperty_to_xml (tag_name : string) (value : list Z)
  : result (option Element) :=
  match value with
  | [] => OK None
  | _ :: _ => Raise TypeError
  end.

(** ** [Shader] *)

Record VertexLayoutList : Type := { value : list string }.

Record ShaderParameter : Type := { name : string; param_attrib : list (string * string) }.

Record Shader : Type := {
  filename : string;
  render_buckets : list Z;
  layouts : list VertexLayoutList;
  parameters : list ShaderParameter
}.

(** [x in xs] on a list of strings. *)
Fixpoint list_contains (x : string) (xs : list string) : bool :=
  match xs with
  | [] => false
  | y :: ys => String.eqb x y || list_contains x ys
  end.

Fixpoint required_tangent_loop (ls : list VertexLayoutList) : bool :=
  match ls with
  | [] => false
  | layout :: rest =>
      if list_contains "Tangent" (value layout) then true
      else required_tangent_loop rest
  end.

Definition required_tangent (self : Shader) : bool :=
  required_tangent_loop (layouts self).

Fixpoint uv_animation_loop (ps : list ShaderParameter) (has_uv0 has_uv1 : bool)
  : bool * bool :=
  match ps with
  | [] => (has_uv0, has_uv1)
  | param :: rest =>
      let has_uv0 := if String.eqb (name param) "globalAnimUV0" then true else has_uv0 in
      let has_uv1 := if String.eqb (name param) "globalAnimUV1" then true else has_uv1 in
      uv_animation_loop rest has_uv0 has_uv1
  end.

Definition is_uv_animation_supported (self : Shader) : bool :=
  let '(has_uv0, has_uv1) := uv_animation_loop (parameters self) false false in
  has_uv0 && has_uv1.

(** ** [ShaderManager] *)

(** The three class-level tables and the store of the [Shader] objects
    built so far.  A table holds references (indices of [objects]). *)
Record ShaderManager : Type := {
  _shaders_base_names : gmap nat (option string);
  _shaders : gmap string nat;
  _shaders_by_hash : gmap Z nat;
  objects : list Shader
}.

(** The tables as the class body leaves them. *)
Definition ShaderManager_init : ShaderManager :=
  {| _shaders_base_names := ∅; _shaders := ∅; _shaders_by_hash := ∅; objects := [] |}.

(** [shader.filename = filename] *)
Definition set_filename (shader : Shader) (f : string) : Shader :=
  {| filename := f; render_buckets := render_buckets shader;
     layouts := layouts shader; parameters := parameters shader |}.

(** [load_shaders] takes the root of the parsed document.  [Generate] is
    [jenkhash.Generate] and [Shader_from_xml] is [Shader.from_xml], both
    defined outside this file. *)
Section LoadShaders.
Variable Generate : string -> Z.
Variable Shader_from_xml : Element -> result Shader.

(** The body of the inner loop after the [continue]: a new [Shader] is
    built from the whole entry and entered in the three tables. *)
Definition register (node : Element) (base_name : option string)
    (st : ShaderManager) (filename : string) : result ShaderManager :=
  let filename_hash := Generate filename in
  shader ← Shader_from_xml node;
  let shader := set_filename shader filename in
  let ref := length (objects st) in
  OK {| _shaders := <[filename := ref]> (_shaders st);
        _shaders_by_hash := <[filename_hash := ref]> (_shaders_by_hash st);
        _shaders_base_names := <[ref := base_name]> (_shaders_base_names st);
        objects := objects st ++ [shader] |}.

(** The body of the inner loop. *)
Definition load_alias (node : Element) (base_name : option string)
    (st : ShaderManager) (filename_elem : Element) : result ShaderManager :=
  match text filename_elem with
  | None => OK st
  | Some filename => register node base_name st filename
  end.

(** The body of the outer loop. *)
Definition load_node (st : ShaderManager) (node : Element) : result ShaderManager :=
  match ET.find "Name" node with
  | None => Raise AttributeError
  | Some name_elem =>
      let base_name := text name_elem in
      for_each (load_alias node base_name) st (ET.findall_below_child "FileName" node)
  end.

Definition load_shaders (root : Element) (st : ShaderManager) : result ShaderManager :=
  for_each load_node st (children root).

(** One turn of the inner loop, from the entry and the alias string. *)
Definition register_pair (st : ShaderManager) (reg : Element * string)
  : result ShaderManager :=
  register (fst reg)
    (match ET.find "Name" (fst reg) with Some e => text e | None => None end)
    st (snd reg).

End LoadShaders.

Definition find_shader (st : ShaderManager) (filename : string) : result (option nat) :=
  let shader := _shaders st !! filename in
  match shader with
  | None =>
      if PyStr.startswith filename "hash_" then
        filename_hash ← PyStr.int (PyStr.slice_from 5 filename) 16;
        OK (_shaders_by_hash st !! filename_hash)
      else OK shader
  | Some _ => OK shader
  end.

Definition find_shader_base_name (st : ShaderManager) (filename : string)
  : result (option string) :=
  shader ← find_shader st filename;
  match shader with
  | None => OK None
  | Some ref =>
      match _shaders_base_names st !! ref with
      | Some base_name => OK base_name
      | None => Raise KeyError
      end
  end.

(** ** Parts of the repository outside this file *)

(** Modelled from the spec: [jenkhash.Generate], described as a 32-bit
    one-at-a-time mixing hash over the lower-case bytes of the string. *)
Definition u32 (x : Z) : Z := Z.land x 4294967295.

Fixpoint joaat_mix (bytes : list Z) (h : Z) : Z :=
  match bytes with
  | [] => h
  | b :: rest =>
      let h := u32 (h + b) in
      let h := u32 (h + Z.shiftl h 10) in
      let h := Z.lxor h (Z.shiftr h 6) in
      joaat_mix rest h
  end.

Definition jenkhash_Generate (s : string) : Z :=
  let h := joaat_mix (PyStr.encode_utf8 (PyStr.lower s)) 0 in
  let h := u32 (h + Z.shiftl h 3) in
  let h := Z.lxor h (Z.shiftr h 11) in
  u32 (h + Z.shiftl h 15).

(** Modelled from the spec: [Shader.from_xml], the element-tree parse of an
    entry.  Each declared field is looked up by its tag among the children
    of the entry; an absent child leaves the default.  A layout is the list
    of the texts of its items; a parameter is named by its [name]
    attribute. *)
Definition TextProperty_from_xml (element : Element) : string :=
  default EmptyString (text element).

Definition VertexLayoutList_from_xml (element : Element) : VertexLayoutList :=
  {| value := map TextProperty_from_xml (children element) |}.

Definition ShaderParameter_from_xml (element : Element) : ShaderParameter :=
  {| name := ET.get "name" EmptyString element; param_attrib := attrib element |}.

Definition Shader_from_xml (element : Element) : result Shader :=
  let filename :=
    match ET.find "Name" element with
    | Some c => TextProperty_from_xml c
    | None => EmptyString
    end in
  render_buckets ←
    match ET.find "RenderBucket" element with
    | Some c => RenderBucketProperty_from_xml c
    | None => OK []
    end;
  let layouts :=
    match ET.find "Layout" element with
    | Some c => map VertexLayoutList_from_xml (children c)
    | None => []
    end in
  let parameters :=
    match ET.find "Parameters" element with
    | Some c => map ShaderParameter_from_xml (children c)
    | None => []
    end in
  OK {| filename := filename; render_buckets := render_buckets;
        layouts := layouts; parameters := parameters |}.

(** The module ends with [ShaderManager.load_shaders()]. *)
Definition load_catalogue (root : Element) : result ShaderManager :=
  load_shaders jenkhash_Generate Shader_from_xml root ShaderManager_init.

(** ** Predicates on strings *)

Fixpoint string_forallb (p : ascii -> bool) (s : string) : bool :=
  match s with
  | EmptyString => true
  | String c s' => p c && string_forallb p s'
  end.

(** The string consists of white space only. *)
Definition all_space (s : string) : bool := string_forallb PyStr.isspace s.

(** The string has no blank. *)
Definition no_blank (s : string) : bool :=
  string_forallb (fun c => negb (Ascii.eqb c " ")) s.

(** The string is not empty and its first character is no white space. *)
Definition starts_nonspace (s : string) : bool :=
  match s with
  | EmptyString => false
  | String c _ => negb (PyStr.isspace c)
  end.

(** The string is not empty and its last character is no white space. *)
Fixpoint ends_nonspace (s : string) : bool :=
  match s with
  | EmptyString => false
  | String c EmptyString => negb (PyStr.isspace c)
  | String _ s' => ends_nonspace s'
  end.

(** What the scanner of [int] needs of the character of a digit. *)
Record digit_char_ok (c : ascii) (d : Z) : Prop := {
  dc_value : PyStr.digit_value c = Some d;
  dc_not_Py_ISSPACE : PyStr.Py_ISSPACE c = false;
  dc_not_isspace : PyStr.isspace c = false;
  dc_ascii : (PyStr.ord c <? 128) = true;
  dc_not_underscore : Ascii.eqb c "_" = false;
  dc_not_blank : Ascii.eqb c " " = false;
  dc_not_plus : Ascii.eqb c "+" = false;
  dc_not_minus : Ascii.eqb c "-" = false;
  dc_not_letter16 : PyStr.is_base_letter 16 c = false;
  dc_not_letter10 : PyStr.is_base_letter 10 c = false
}.

(** ** The registrations of a document *)

(** Text of the first [Name] child of an entry. *)
Definition display_name (node : Element) : option string :=
  match ET.find "Name" node with
  | Some name_elem => text name_elem
  | None => None
  end.

(** The alias elements of an entry, and the alias strings among them. *)
Definition alias_elements (node : Element) : list Element :=
  ET.findall_below_child "FileName" node.

Definition aliases (node : Element) : list string :=
  omap text (alias_elements node).

(** Every (entry, alias) pair of the document, in the order of the loops. *)
Definition registrations (root : Element) : list (Element * string) :=
  flat_map (fun node => map (pair node) (aliases node)) (children root).

(** [last_at P l r]: position [r] of [l] satisfies [P] and no later one does. *)
Definition last_at {A : Type} (P : A -> Prop) (l : list A) (r : nat) : Prop :=
  (exists x, l !! r = Some x /\ P x) /\
  (forall j x, (r < j)%nat -> l !! j = Some x -> ~ P x).

(** [below d e]: [d] is an element of the subtree of [e], at any depth
    under it. *)
Inductive below : Element -> Element -> Prop :=
| below_child (d e : Element) : In d (children e) -> below d e
| below_deeper (d c e : Element) : In c (children e) -> below d c -> below d e.

(** Induction on an element with the hypothesis for every child. *)
Fixpoint Element_ind_children (P : Element -> Prop)
    (step : forall e, Forall P (children e) -> P e) (e : Element) : P e :=
  match e as e0 return (forall (step0 : Forall P (children e0) -> P e0), P e0) with
  | mkElement t a x tl cs => fun step0 =>
      step0 ((fix go (l : list Element) : Forall P l :=
                match l with
                | [] => @List.Forall_nil Element P
                | c :: l' => @List.Forall_cons Element P c l' (Element_ind_children P step c) (go l')
                end) cs)
  end (step e).

(** What the tables hold after the registrations [regs], started from the
    empty tables: object [i] is the parse of the entry of registration [i]
    under its alias, its base name is the display name of that entry, and
    a key of a table leads to the last registration with that key. *)
Record trace_inv (Generate : string -> Z) (from_xml : Element -> result Shader)
    (regs : list (Element * string)) (st : ShaderManager) : Prop := {
  inv_length : length (objects st) = length regs;
  inv_objects : forall i node a, regs !! i = Some (node, a) ->
    exists sh, from_xml node = OK sh /\ objects st !! i = Some (set_filename sh a);
  inv_base_names : forall i : nat,
    _shaders_base_names st !! i = (fun reg => display_name (fst reg)) <$> regs !! i;
  inv_shaders : forall f r,
    _shaders st !! f = Some r <-> last_at (fun reg => snd reg = f) regs r;
  inv_by_hash : forall h r,
    _shaders_by_hash st !! h = Some r <->
    last_at (fun reg => Generate (snd reg) = h) regs r
}.

(** ** Sample documents *)

Definition leaf (t : string) (x : option string) : Element := mkElement t [] x None [].
Definition node_of (t : string) (cs : list Element) : Element := mkElement t [] None None cs.

Definition tab : string := String "009"%char EmptyString.
Definition newline : string := String "010"%char EmptyString.
Definition nbsp : string := String "160"%char EmptyString.

(** An entry with two aliases, one of them below a group element, and an
    alias element without text. *)
Definition entry_standard : Element :=
  node_of "Item"
    [ leaf "Name" (Some "Standard Shader");
      node_of "FileName"
        [ leaf "Item" (Some "std.sps");
          leaf "Item" None;
          node_of "Group" [ leaf "Alt" (Some "std_alt.sps") ] ];
      leaf "RenderBucket" (Some "0 1");
      node_of "Layout"
        [ node_of "Item" [ leaf "Item" (Some "Position"); leaf "Item" (Some "Normal");
                           leaf "Item" (Some "Tangent") ] ];
      node_of "Parameters"
        [ mkElement "Item" [("name", "DiffuseSampler"); ("type", "Texture")] None None [] ] ].

Definition entry_glass : Element :=
  node_of "Item"
    [ leaf "Name" (Some "Glass");
      node_of "FileName" [ leaf "Item" (Some "glass.sps") ];
      leaf "RenderBucket" (Some "1") ].

Definition catalogue_standard : Element :=
  node_of "Shaders" [ entry_standard; entry_glass ].

(** Two entries listing the same alias. *)
Definition entry_A : Element :=
  node_of "Item"
    [ leaf "Name" (Some "A");
      node_of "FileName" [ leaf "Item" (Some "x.sps") ];
      leaf "RenderBucket" (Some "1") ].

Definition entry_B : Element :=
  node_of "Item"
    [ leaf "Name" (Some "B");
      node_of "FileName" [ leaf "Item" (Some "x.sps") ];
      leaf "RenderBucket" (Some "2") ].

Definition catalogue_shared_alias : Element :=
  node_of "Shaders" [ entry_A; entry_B ].

(** An entry whose [Name] element has no text. *)
Definition entry_unnamed : Element :=
  node_of "Item"
    [ leaf "Name" None;
      node_of "FileName" [ leaf "Item" (Some "a.sps") ] ].

Definition catalogue_unnamed : Element :=
  node_of "Shaders" [ entry_unnamed ].

(** The tables after the load of a sample document. *)
Definition loaded (root : Element) : ShaderManager :=
  match load_catalogue root with
  | OK st => st
  | Raise _ => ShaderManager_init
  end.

Definition shader_position_normal : Shader :=
  {| filename := "default.sps"; render_buckets := [0];
     layouts := [ {| value := ["Position"; "Normal"] |} ]; parameters := [] |}.

(** ** The classification tables of [ShaderManager] *)

Definition terrains : list string :=
  [ "terrain_cb_w_4lyr.sps"; "terrain_cb_w_4lyr_lod.sps"; "terrain_cb_w_4lyr_spec.sps";
     "terrain_cb_w_4lyr_spec_pxm.sps"; "terrain_cb_w_4lyr_pxm_spm.sps";
     "terrain_cb_w_4lyr_pxm.sps"; "terrain_cb_w_4lyr_cm_pxm.sps";
     "terrain_cb_w_4lyr_cm_tnt.sps"; "terrain_cb_w_4lyr_cm_pxm_tnt.sps";
     "terrain_cb_w_4lyr_cm.sps"; "terrain_cb_w_4lyr_2tex.sps";
     "terrain_cb_w_4lyr_2tex_blend.sps"; "terrain_cb_w_4lyr_2tex_blend_lod.sps";
     "terrain_cb_w_4lyr_2tex_blend_pxm.sps"; "terrain_cb_w_4lyr_2tex_blend_pxm_spm.sps";
     "terrain_cb_w_4lyr_2tex_pxm.sps"; "terrain_cb_4lyr.sps";
     "terrain_cb_w_4lyr_spec_int_pxm.sps"; "terrain_cb_w_4lyr_spec_int.sps";
     "terrain_cb_4lyr_lod.sps" ].

Definition mask_only_terrains : list string :=
  [ "terrain_cb_w_4lyr_cm.sps"; "terrain_cb_w_4lyr_cm_tnt.sps";
     "terrain_cb_w_4lyr_cm_pxm_tnt.sps"; "terrain_cb_w_4lyr_cm_pxm.sps" ].

Definition cutouts : list string :=
  [ "cutout.sps"; "cutout_um.sps"; "cutout_tnt.sps"; "cutout_fence.sps";
     "cutout_fence_normal.sps"; "cutout_hard.sps"; "cutout_spec_tnt.sps";
     "normal_cutout.sps"; "normal_cutout_tnt.sps"; "normal_cutout_um.sps";
     "normal_spec_cutout.sps"; "normal_spec_cutout_tnt.sps"; "trees_lod.sps";
     "trees.sps"; "trees_tnt.sps"; "trees_normal.sps"; "trees_normal_spec.sps";
     "trees_normal_spec_tnt.sps"; "trees_normal_diffspec.sps";
     "trees_normal_diffspec_tnt.sps" ].

Definition alphas : list string :=
  [ "normal_spec_alpha.sps"; "normal_spec_reflect_alpha.sps";
     "normal_spec_reflect_emissivenight_alpha.sps"; "normal_spec_screendooralpha.sps";
     "normal_alpha.sps"; "normal_reflect_alpha.sps"; "emissive_alpha.sps";
     "emissive_alpha_tnt.sps"; "emissive_clip.sps"; "emissive_additive_alpha.sps";
     "emissivenight_alpha.sps"; "emissivestrong_alpha.sps"; "spec_alpha.sps";
     "spec_reflect_alpha.sps"; "alpha.sps"; "reflect_alpha.sps";
     "normal_screendooralpha.sps"; "spec_screendooralpha.sps"; "cloth_spec_alpha.sps";
     "cloth_normal_spec_alpha.sps" ].

Definition glasses : list string :=
  [ "glass.sps"; "glass_pv.sps"; "glass_pv_env.sps"; "glass_env.sps"; "glass_spec.sps";
     "glass_reflect.sps"; "glass_emissive.sps"; "glass_emissivenight.sps";
     "glass_emissivenight_alpha.sps"; "glass_breakable.sps";
     "glass_breakable_screendooralpha.sps"; "glass_displacement.sps";
     "glass_normal_spec_reflect.sps"; "glass_emissive_alpha.sps" ].

Definition decals : list string :=
  [ "decal.sps"; "decal_tnt.sps"; "decal_glue.sps"; "decal_spec_only.sps";
     "decal_normal_only.sps"; "decal_emissive_only.sps"; "decal_emissivenight_only.sps";
     "decal_amb_only.sps"; "normal_decal.sps"; "normal_decal_pxm.sps";
     "normal_decal_pxm_tnt.sps"; "normal_decal_tnt.sps"; "normal_spec_decal.sps";
     "normal_spec_decal_detail.sps"; "normal_spec_decal_nopuddle.sps";
     "normal_spec_decal_tnt.sps"; "normal_spec_decal_pxm.sps"; "spec_decal.sps";
     "spec_reflect_decal.sps"; "reflect_decal.sps"; "decal_dirt.sps";
     "mirror_decal.sps"; "grass_batch.sps" ].

Definition veh_cutouts : list string :=
  [ "vehicle_cutout.sps"; "vehicle_badges.sps" ].

Definition veh_glasses : list string :=
  [ "vehicle_vehglass.sps"; "vehicle_vehglass_inner.sps" ].

Definition veh_decals : list string :=
  [ "vehicle_decal.sps"; "vehicle_decal2.sps"; "vehicle_blurredrotor_emissive.sps" ].

Definition shadow_proxies : list string :=
  [ "trees_shadow_proxy.sps" ].

Definition tint_flag_1 : list string :=
  [ "trees_normal_diffspec_tnt.sps"; "trees_tnt.sps"; "trees_normal_spec_tnt.sps" ].

Definition tint_flag_2 : list string :=
  [ "weapon_normal_spec_detail_tnt.sps"; "weapon_normal_spec_cutout_palette.sps";
     "weapon_normal_spec_detail_palette.sps"; "weapon_normal_spec_palette.sps" ].

Definition em_shaders : list string :=
  [ "normal_spec_emissive.sps"; "normal_spec_reflect_emissivenight.sps"; "emissive.sps";
     "emissive_speclum.sps"; "emissive_tnt.sps"; "emissivenight.sps";
     "emissivenight_geomnightonly.sps"; "emissivestrong_alpha.sps";
     "emissivestrong.sps"; "glass_emissive.sps"; "glass_emissivenight.sps";
     "glass_emissivenight_alpha.sps"; "glass_emissive_alpha.sps";
     "decal_emissive_only.sps"; "decal_emissivenight_only.sps" ].

Definition water_shaders : list string :=
  [ "water_fountain.sps"; "water_poolenv.sps"; "water_decal.sps";
     "water_terrainfoam.sps"; "water_riverlod.sps"; "water_shallow.sps";
     "water_riverfoam.sps"; "water_riverocean.sps"; "water_rivershallow.sps" ].

(** [tinted_shaders()] and [cutout_shaders()] *)
Definition tinted_shaders : list string :=
  (cutouts ++ alphas ++ glasses ++ decals ++ veh_cutouts ++ veh_glasses ++ veh_decals
   ++ shadow_proxies)%list.

Definition cutout_shaders : list string :=
  (cutouts ++ veh_cutouts ++ shadow_proxies)%list.

(** ** [Shader.used_texcoords] *)

(** [needle in s] on strings: [needle] occurs in [s]. *)
Fixpoint str_in (needle s : string) : bool :=
  String.prefix needle s
  || match s with
     | EmptyString => false
     | String _ s' => str_in needle s'
     end.

(** The inner loop, over the field names of one layout. *)
Fixpoint used_texcoords_fields (fields : list string) (names : gset string)
  : gset string :=
  match fields with
  | [] => names
  | field_name :: rest =>
      used_texcoords_fields rest
        (if str_in "TexCoord" field_name then {[ field_name ]} ∪ names else names)
  end.

Fixpoint used_texcoords_loop (ls : list VertexLayoutList) (names : gset string)
  : gset string :=
  match ls with
  | [] => names
  | layout :: rest => used_texcoords_loop rest (used_texcoords_fields (value layout) names)
  end.

Definition used_texcoords (self : Shader) : gset string :=
  used_texcoords_loop (layouts self) ∅.

(** Number of occurrences of a character. *)
Fixpoint count_char (c : ascii) (s : string) : nat :=
  match s with
  | EmptyString => O
  | String x s' => if Ascii.eqb x c then S (count_char c s') else count_char c s'
  end.

(** Every reference of the two lookup tables is a key of the base-name
    table. *)
Definition covered (st : ShaderManager) : Prop :=
  (forall f r, _shaders st !! f = Some r -> is_Some (_shaders_base_names st !! r)) /\
  (forall h r, _shaders_by_hash st !! h = Some r -> is_Some (_shaders_base_names st !! r)).

(** A shader with texture coordinates, a tangent and both animation
    parameters. *)
Definition shader_animated : Shader :=
  {| filename := "normal_spec.sps"; render_buckets := [0];
     layouts := [ {| value := ["Position"; "Normal"; "TexCoord0"; "Tangent"] |};
                  {| value := ["Position"; "TexCoord0"; "TexCoord1"] |} ];
     parameters := [ {| name := "globalAnimUV0"; param_attrib := [] |};
                     {| name := "globalAnimUV1"; param_attrib := [] |} ] |}.

Definition shader_animated_renamed : Shader :=
  {| filename := "normal_spec_tnt.sps"; render_buckets := [0];
     layouts := [ {| value := ["Position"; "TexCoord0"; "TexCoord1"] |};
                  {| value := ["Position"; "Normal"; "TexCoord0"; "Tangent"] |} ];
     parameters := [ {| name := "globalAnimUV1"; param_attrib := [] |};
                     {| name := "globalAnimUV0"; param_attrib := [] |} ] |}.

(** An entry whose render buckets cannot be read, with and without an
    alias. *)
Definition entry_bad_bucket : Element :=
  node_of "Item"
    [ leaf "Name" (Some "Broken");
      node_of "FileName" [ leaf "Item" (Some "broken.sps") ];
      leaf "RenderBucket" (Some "1  2") ].

Definition entry_bad_bucket_unlisted : Element :=
  node_of "Item"
    [ leaf "Name" (Some "Unlisted");
      node_of "FileName" [ leaf "Item" None ];
      leaf "RenderBucket" (Some "1  2") ].

Definition catalogue_bad_bucket : Element :=
  node_of "Shaders" [ entry_glass; entry_bad_bucket ].

Definition catalogue_unlisted : Element :=
  node_of "Shaders" [ entry_bad_bucket_unlisted; entry_glass ].

(** * Properties *)

(** ** The derived properties of a [Shader] *)

Lemma list_contains_elem_of (x : string) (xs : list string) :
  list_contains x xs = true <-> x ∈ xs.
Proof.
  induction xs as [|y ys IH]; simpl.
  - split; [discriminate | intros H; inversion H].
  - rewrite orb_true_iff, IH, elem_of_cons, String.eqb_eq. reflexivity.
Qed.

Lemma required_tangent_loop_true (ls : list VertexLayoutList) :
  required_tangent_loop ls = true <->
  exists layout, layout ∈ ls /\ "Tangent" ∈ value layout.
Proof.
  induction ls as [|l ls IH]; simpl.
  - split; [discriminate | intros (l & Hl & _); inversion Hl].
  - destruct (list_contains "Tangent" (value l)) eqn:E.
    + split; [intros _ | reflexivity].
      exists l. split; [left | by apply list_contains_elem_of].
    + rewrite IH. split.
      * intros (l' & Hin & Ht). exists l'. split; [by right | done].
      * intros (l' & Hin & Ht). apply elem_of_cons in Hin as [-> | Hin].
        -- apply list_contains_elem_of in Ht. congruence.
        -- eauto.
Qed.

(** C6. [required_tangent] holds exactly when some layout of the shader
    has the element "Tangent"; it is false for a shader whose layouts list
    only "Position" and "Normal". *)
Theorem required_tangent_iff (self : Shader) :
  (required_tangent self = true <->
   exists layout, layout ∈ layouts self /\ "Tangent" ∈ value layout) /\
  (Forall (fun layout => Forall (fun t => t = "Position" \/ t = "Normal") (value layout))
          (layouts self) ->
   required_tangent self = false).
Proof.
  split; [apply required_tangent_loop_true |].
  intros Hall. apply not_true_is_false. intros Ht.
  apply required_tangent_loop_true in Ht as (l & Hin & Htan).
  rewrite Forall_forall in Hall. specialize (Hall l Hin).
  rewrite Forall_forall in Hall. destruct (Hall _ Htan); discriminate.
Qed.

Lemma required_tangent_iff_witness :
  required_tangent shader_position_normal = false.
Proof.
  apply (proj2 (required_tangent_iff shader_position_normal)).
  repeat match goal with
         | |- Forall _ _ => constructor
         | |- _ \/ _ => first [ by left | by right ]
         end.
Defined.

Lemma uv_animation_loop_flags (ps : list ShaderParameter) (a b : bool) :
  uv_animation_loop ps a b =
  (a || existsb (fun p => String.eqb (name p) "globalAnimUV0") ps,
   b || existsb (fun p => String.eqb (name p) "globalAnimUV1") ps).
Proof.
  revert a b. induction ps as [|p ps IH]; intros a b; simpl.
  - by rewrite !orb_false_r.
  - rewrite IH.
    destruct (String.eqb (name p) "globalAnimUV0"), (String.eqb (name p) "globalAnimUV1"),
      a, b; reflexivity.
Qed.

Lemma existsb_name (n : string) (ps : list ShaderParameter) :
  existsb (fun p => String.eqb (name p) n) ps = true <->
  exists p, p ∈ ps /\ name p = n.
Proof.
  rewrite existsb_exists. split.
  - intros (p & Hin & He). exists p. split; [by apply list_elem_of_In | by apply String.eqb_eq].
  - intros (p & Hin & He). exists p. split; [by apply list_elem_of_In | by apply String.eqb_eq].
Qed.

(** C7. [is_uv_animation_supported] holds exactly when the parameters hold
    one named "globalAnimUV0" and one named "globalAnimUV1". *)
Theorem is_uv_animation_supported_iff (self : Shader) :
  is_uv_animation_supported self = true <->
  (exists p, p ∈ parameters self /\ name p = "globalAnimUV0") /\
  (exists p, p ∈ parameters self /\ name p = "globalAnimUV1").
Proof.
  unfold is_uv_animation_supported. rewrite uv_animation_loop_flags. simpl.
  rewrite andb_true_iff, !existsb_name. reflexivity.
Qed.

(** Only one of the two names: not supported. *)
Example is_uv_animation_supported_one_only :
  is_uv_animation_supported
    {| filename := "a.sps"; render_buckets := []; layouts := [];
       parameters := [ {| name := "globalAnimUV0"; param_attrib := [] |};
                       {| name := "DiffuseSampler"; param_attrib := [] |} ] |} = false /\
  is_uv_animation_supported
    {| filename := "a.sps"; render_buckets := []; layouts := [];
       parameters := [ {| name := "globalAnimUV1"; param_attrib := [] |} ] |} = false /\
  is_uv_animation_supported
    {| filename := "a.sps"; render_buckets := []; layouts := [];
       parameters := [ {| name := "globalAnimUV1"; param_attrib := [] |};
                       {| name := "globalAnimUV0"; param_attrib := [] |} ] |} = true.
Proof. repeat split. Qed.

(** ** The built-ins on sample inputs *)


Example int_examples :
  PyStr.int "zz" 16 = Raise ValueError /\
  PyStr.int EmptyString 16 = Raise ValueError /\
  PyStr.int "FF" 16 = OK 255 /\
  PyStr.int " 0x1F " 16 = OK 31 /\
  PyStr.int "-1" 16 = OK (-1) /\
  PyStr.int "0x_ff" 16 = OK 255 /\
  PyStr.int "0x__ff" 16 = Raise ValueError /\
  PyStr.int "ff_" 16 = Raise ValueError /\
  PyStr.int "f_f" 16 = OK 255 /\
  PyStr.int "0x" 16 = Raise ValueError /\
  PyStr.int "100000000" 16 = OK 4294967296 /\
  PyStr.int "0b1" 16 = OK 177 /\
  PyStr.int (nbsp +:+ "1") 16 = OK 1 /\
  PyStr.int "- 1" 16 = Raise ValueError /\
  PyStr.int "1 2" 10 = Raise ValueError /\
  PyStr.int (tab +:+ "2") 10 = OK 2 /\
  PyStr.int EmptyString 10 = Raise ValueError.
Proof. repeat split; vm_compute; reflexivity. Qed.

Example strip_split_examples :
  PyStr.split " " EmptyString = [EmptyString] /\
  PyStr.split " " " a  b " = [EmptyString; "a"; EmptyString; "b"; EmptyString] /\
  PyStr.strip (" 1 2" +:+ tab) = "1 2" /\
  PyStr.strip EmptyString = EmptyString.
Proof. repeat split; vm_compute; reflexivity. Qed.

(** ** Integer literals *)

Lemma int_raises_ValueError (s : string) (base : Z) (e : exn) :
  PyStr.int s base = Raise e -> e = ValueError.
Proof.
  unfold PyStr.int. repeat case_match; congruence.
Qed.

Lemma append_cons (c : ascii) (s t : string) : String c s +:+ t = String c (s +:+ t).
Proof. reflexivity. Qed.

Lemma append_nil_l (t : string) : EmptyString +:+ t = t.
Proof. reflexivity. Qed.

Lemma append_empty_r (s : string) : s +:+ EmptyString = s.
Proof.
  induction s as [|c s IH]; [reflexivity |]. by rewrite append_cons, IH.
Qed.

Lemma digit_char_props (d : Z) :
  0 <= d < 16 -> digit_char_ok (PyStr.digit_char d) d.
Proof.
  intros Hd.
  assert (d = 0 \/ d = 1 \/ d = 2 \/ d = 3 \/ d = 4 \/ d = 5 \/ d = 6 \/ d = 7 \/
          d = 8 \/ d = 9 \/ d = 10 \/ d = 11 \/ d = 12 \/ d = 13 \/ d = 14 \/ d = 15)
    as Hcases by lia.
  repeat (destruct Hcases as [-> | Hcases]); [..| subst d];
    split; vm_compute; reflexivity.
Qed.

Lemma scan_digits_digit (base : Z) (c : ascii) (s : string) (pu : bool) (k : nat)
    (a d : Z) :
  Ascii.eqb c "_" = false -> PyStr.digit_value c = Some d -> d < base ->
  PyStr.scan_digits base (String c s) pu k a =
  PyStr.scan_digits base s false (S k) (a * base + d).
Proof.
  intros Hu Hv Hlt. simpl. rewrite Hu, Hv.
  destruct (Z.ltb_spec d base); [reflexivity | lia].
Qed.

Lemma scan_digits_string (base : Z) (ds : list Z) (d : Z) (rest : string) (pu : bool)
    (k : nat) (a : Z) :
  base <= 16 -> Forall (fun x => 0 <= x < base) (d :: ds) ->
  PyStr.scan_digits base (PyStr.digits_string (d :: ds) +:+ rest) pu k a =
  PyStr.scan_digits base rest false (k + length (d :: ds))
    (PyStr.horner base (d :: ds) a).
Proof.
  intros Hb. revert d pu k a.
  induction ds as [|d' ds IH]; intros d pu k a Hall;
    inversion Hall as [|? ? Hd Hall']; subst;
    destruct (digit_char_props d ltac:(lia)) as [Hv _ _ _ Hu _ _ _ _ _].
  - change (PyStr.digits_string [d] +:+ rest) with (String (PyStr.digit_char d) rest).
    rewrite (scan_digits_digit base _ rest pu k a d Hu Hv) by lia.
    simpl. by rewrite Nat.add_1_r.
  - change (PyStr.digits_string (d :: d' :: ds) +:+ rest)
      with (String (PyStr.digit_char d) (PyStr.digits_string (d' :: ds) +:+ rest)).
    rewrite (scan_digits_digit base _ _ pu k a d Hu Hv) by lia.
    rewrite IH by done. f_equal. simpl. lia.
Qed.

Lemma is_ascii_digits_string (ds : list Z) :
  Forall (fun x => 0 <= x < 16) ds -> PyStr.is_ascii (PyStr.digits_string ds) = true.
Proof.
  induction 1 as [|d ds Hd _ IH]; [reflexivity |].
  change (PyStr.digits_string (d :: ds))
    with (String (PyStr.digit_char d) (PyStr.digits_string ds)).
  simpl. rewrite IH. by destruct (digit_char_props d Hd) as [_ _ _ -> _ _ _ _ _ _].
Qed.

Lemma skip_base_prefix_digits (base : Z) (ds : list Z) :
  base = 10 \/ base = 16 -> Forall (fun x => 0 <= x < 16) ds ->
  PyStr.skip_base_prefix base (PyStr.digits_string ds) = PyStr.digits_string ds.
Proof.
  intros Hb Hall. destruct Hall as [|d ds Hd Hall]; [reflexivity |].
  destruct Hall as [|d' ds Hd' Hall]; [reflexivity |].
  change (PyStr.digits_string (d :: d' :: ds))
    with (String (PyStr.digit_char d) (String (PyStr.digit_char d') (PyStr.digits_string ds))).
  unfold PyStr.skip_base_prefix.
  destruct (digit_char_props d' Hd') as [_ _ _ _ _ _ _ _ H16 H10].
  destruct Hb as [-> | ->]; [rewrite H10 | rewrite H16]; by rewrite andb_false_r.
Qed.

(** A plain run of digits is read back as its value. *)
Lemma int_digits (base : Z) (neg : bool) (d : Z) (ds : list Z) :
  base = 10 \/ base = 16 ->
  Forall (fun x => 0 <= x < base) (d :: ds) ->
  (base = 10 -> (length (d :: ds) <= PyStr.int_max_str_digits)%nat) ->
  let s := PyStr.digits_string (d :: ds) in
  PyStr.int (if neg then String "-" s else s) base =
  OK (if neg then - PyStr.horner base (d :: ds) 0 else PyStr.horner base (d :: ds) 0).
Proof.
  intros Hb Hall Hlen s.
  assert (Hall16 : Forall (fun x => 0 <= x < 16) (d :: ds)).
  { eapply Forall_impl; [exact Hall |]. simpl. intros x Hx. destruct Hb; lia. }
  assert (Hd : 0 <= d < 16) by (by inversion Hall16).
  destruct (digit_char_props d Hd) as [_ Hsp _ Hasc Hu _ Hplus Hminus _ _].
  assert (Hs : s = String (PyStr.digit_char d) (PyStr.digits_string ds)) by reflexivity.
  assert (Hsa : PyStr.is_ascii s = true) by (by apply is_ascii_digits_string).
  assert (Hpre : PyStr.skip_base_prefix base s = s)
    by (by apply skip_base_prefix_digits).
  assert (Hscan : PyStr.scan_digits base s false 0 0 =
                  Some (PyStr.horner base (d :: ds) 0, S (length ds), EmptyString)).
  { rewrite <- (append_empty_r s). unfold s.
    rewrite scan_digits_string by (done || destruct Hb; lia). reflexivity. }
  clearbody s.
  assert (Hlit : PyStr.skip_spaces (PyStr.to_ascii_literal (if neg then String "-" s else s))
                 = if neg then String "-" s else s).
  { unfold PyStr.to_ascii_literal.
    assert (PyStr.is_ascii (if neg then String "-" s else s) = true) as ->.
    { destruct neg; [| done]. cbn [PyStr.is_ascii]. by rewrite Hsa. }
    destruct neg; [reflexivity |]. rewrite Hs. cbn [PyStr.skip_spaces]. by rewrite Hsp. }
  assert (Hsign : PyStr.parse_sign (if neg then String "-" s else s) = (neg, s)).
  { destruct neg; [reflexivity |]. rewrite Hs. cbn [PyStr.parse_sign].
    by rewrite Hplus, Hminus. }
  unfold PyStr.int. rewrite Hlit, Hsign, Hpre, Hscan.
  rewrite Hs at 1. cbn [PyStr.starts_with_underscore]. rewrite Hu.
  cbn [Nat.eqb PyStr.skip_spaces].
  assert (negb (PyStr.is_power_of_two base)
          && (PyStr.int_max_str_digits <? S (length ds))%nat = false) as ->.
  { destruct Hb as [-> | ->]; [| reflexivity].
    apply andb_false_iff. right. apply Nat.ltb_ge. by apply Hlen. }
  reflexivity.
Qed.

Lemma to_digits_range (fuel : nat) (base n : Z) :
  0 < base -> Forall (fun x => 0 <= x < base) (PyStr.to_digits fuel base n).
Proof.
  intros Hb. revert n. induction fuel as [|fuel IH]; intros n; simpl.
  - constructor.
  - constructor; [by apply Z.mod_pos_bound |].
    destruct (n <? base); [constructor | apply IH].
Qed.

Lemma to_digits_value (fuel : nat) (base n : Z) :
  2 <= base -> 0 <= n < base ^ Z.of_nat fuel ->
  fold_right (fun d a => a * base + d) 0 (PyStr.to_digits fuel base n) = n.
Proof.
  intros Hb. revert n. induction fuel as [|fuel IH]; intros n Hn.
  - simpl in *. lia.
  - cbn [PyStr.to_digits fold_right].
    destruct (Z.ltb_spec n base) as [Hlt | Hge].
    + simpl. rewrite Z.mod_small by lia. lia.
    + rewrite IH.
      * pose proof (Z.div_mod n base ltac:(lia)). lia.
      * rewrite Nat2Z.inj_succ, Z.pow_succ_r in Hn by lia.
        split; [apply Z.div_pos; lia |].
        apply Z.div_lt_upper_bound; lia.
Qed.

Lemma digits_of_value (base n : Z) :
  2 <= base -> 0 <= n -> PyStr.horner base (PyStr.digits_of base n) 0 = n.
Proof.
  intros Hb Hn. unfold PyStr.horner, PyStr.digits_of.
  rewrite <- fold_left_rev_right, rev_involutive.
  apply to_digits_value; [done |].
  split; [done |].
  destruct (Z.eq_dec n 0) as [-> | Hnz].
  - apply Z.pow_pos_nonneg; lia.
  - pose proof (Z.log2_spec n ltac:(lia)) as [_ Hlog].
    pose proof (Z.log2_nonneg n).
    rewrite Nat2Z.inj_succ, Z2Nat.id by lia.
    eapply Z.lt_le_trans; [exact Hlog |].
    apply Z.pow_le_mono_l. lia.
Qed.

Lemma digits_of_range (base n : Z) :
  0 < base -> Forall (fun x => 0 <= x < base) (PyStr.digits_of base n).
Proof.
  intros Hb. unfold PyStr.digits_of. apply Forall_rev. by apply to_digits_range.
Qed.

Lemma digits_of_cons (base n : Z) :
  exists d ds, PyStr.digits_of base n = d :: ds.
Proof.
  unfold PyStr.digits_of. cbn [PyStr.to_digits].
  destruct (rev _) as [|d ds] eqn:E; [| eauto].
  apply (f_equal (@length Z)) in E. rewrite length_rev in E. simpl in E. lia.
Qed.

Lemma horner_zero_fill (base : Z) (width : nat) (ds : list Z) :
  PyStr.horner base (PyStr.zero_fill width ds) 0 = PyStr.horner base ds 0.
Proof.
  unfold PyStr.horner, PyStr.zero_fill. rewrite fold_left_app. f_equal.
  induction (width - length ds)%nat as [|k IH]; [reflexivity | exact IH].
Qed.

Lemma zero_fill_range (base : Z) (width : nat) (ds : list Z) :
  0 < base -> Forall (fun x => 0 <= x < base) ds ->
  Forall (fun x => 0 <= x < base) (PyStr.zero_fill width ds).
Proof.
  intros Hb Hds. unfold PyStr.zero_fill. apply Forall_app. split; [| done].
  apply Forall_forall. intros x Hx%list_elem_of_In%repeat_spec. lia.
Qed.

Lemma zero_fill_cons (width : nat) (d : Z) (ds : list Z) :
  exists d' ds', PyStr.zero_fill width (d :: ds) = d' :: ds'.
Proof.
  unfold PyStr.zero_fill. destruct (width - length (d :: ds))%nat; simpl; eauto.
Qed.

(** [int(str(z))] is [z], within the digit limit. *)
Lemma int_str_int (z : Z) :
  (PyStr.decimal_digits z <= PyStr.int_max_str_digits)%nat ->
  PyStr.int (PyStr.str_int z) 10 = OK z.
Proof.
  unfold PyStr.decimal_digits, PyStr.str_int. intros Hlen.
  destruct (Z.ltb_spec z 0) as [Hneg | Hpos].
  - rewrite Z.abs_neq in Hlen by lia.
    destruct (digits_of_cons 10 (- z)) as (d & ds & E).
    pose proof (digits_of_range 10 (- z) ltac:(lia)) as Hr.
    pose proof (digits_of_value 10 (- z) ltac:(lia) ltac:(lia)) as Hv.
    rewrite E in *.
    rewrite (int_digits 10 true d ds); [f_equal; lia | by left | done | done].
  - rewrite Z.abs_eq in Hlen by lia.
    destruct (digits_of_cons 10 z) as (d & ds & E).
    pose proof (digits_of_range 10 z ltac:(lia)) as Hr.
    pose proof (digits_of_value 10 z ltac:(lia) ltac:(lia)) as Hv.
    rewrite E in *.
    rewrite (int_digits 10 false d ds); [f_equal; lia | by left | done | done].
Qed.

(** The eight-digit rendering of a non-negative number is read back. *)
Lemma int_format_08x (h : Z) :
  0 <= h -> PyStr.int (PyStr.format_08x h) 16 = OK h.
Proof.
  intros Hh. unfold PyStr.format_08x.
  destruct (Z.ltb_spec h 0) as [? | _]; [lia |].
  destruct (digits_of_cons 16 h) as (d & ds & E).
  pose proof (digits_of_range 16 h ltac:(lia)) as Hr.
  pose proof (digits_of_value 16 h ltac:(lia) Hh) as Hv.
  rewrite E in *.
  destruct (zero_fill_cons 8 d ds) as (d' & ds' & E').
  pose proof (zero_fill_range 16 8 (d :: ds) ltac:(lia) Hr) as Hr'.
  pose proof (horner_zero_fill 16 8 (d :: ds)) as Hv'.
  rewrite E' in *.
  rewrite (int_digits 16 false d' ds'); [f_equal; lia | by right | done | intros; lia].
Qed.

Example format_examples :
  PyStr.format_08x 255 = "000000ff" /\
  PyStr.format_08x 3078201489 = "b779a091" /\
  PyStr.str_int (-1203) = "-1203" /\
  PyStr.str_int 0 = "0" /\
  jenkhash_Generate "adder" = 3078201489.
Proof. repeat split; vm_compute; reflexivity. Qed.

(** ** The loops of [load_shaders] *)

Lemma for_each_app {S A : Type} (f : S -> A -> result S) (st : S) (l1 l2 : list A) :
  for_each f st (l1 ++ l2) = (st' ← for_each f st l1; for_each f st' l2).
Proof.
  revert st. induction l1 as [|x l1 IH]; intros st; simpl; [reflexivity |].
  destruct (f st x) as [st1 | e]; simpl; [apply IH | reflexivity].
Qed.

Lemma for_each_map {S A B : Type} (f : S -> B -> result S) (g : A -> B) (st : S)
    (l : list A) :
  for_each f st (map g l) = for_each (fun s x => f s (g x)) st l.
Proof.
  revert st. induction l as [|x l IH]; intros st; simpl; [reflexivity |].
  destruct (f st (g x)); simpl; [apply IH | reflexivity].
Qed.

Lemma last_at_snoc {A : Type} (P : A -> Prop) (l : list A) (x : A) (r : nat) :
  last_at P (l ++ [x]) r <->
  (P x /\ r = length l) \/ (~ P x /\ last_at P l r).
Proof.
  unfold last_at. split.
  - intros [(y & Hy & HPy) Hlater].
    destruct (Nat.lt_total r (length l)) as [Hlt | [-> | Hgt]].
    + right. rewrite lookup_app_l in Hy by done. split.
      * apply (Hlater (length l)); [done |]. by rewrite list_lookup_middle.
      * split; [eauto |]. intros j z Hj Hz. apply (Hlater j); [done |].
        rewrite lookup_app_l; [done |]. by eapply lookup_lt_Some.
    + left. rewrite list_lookup_middle in Hy by done. by simplify_eq.
    + apply lookup_lt_Some in Hy. rewrite length_app in Hy. simpl in Hy. lia.
  - intros [[HPx ->] | [HnP [(y & Hy & HPy) Hlater]]].
    + split.
      * exists x. by rewrite list_lookup_middle.
      * intros j z Hj Hz. apply lookup_lt_Some in Hz.
        rewrite length_app in Hz. simpl in Hz. lia.
    + split.
      * exists y. split; [| done]. rewrite lookup_app_l; [done |].
        by eapply lookup_lt_Some.
      * intros j z Hj Hz.
        destruct (Nat.lt_total j (length l)) as [Hlt | [-> | Hgt]].
        -- rewrite lookup_app_l in Hz by done. by eapply Hlater.
        -- rewrite list_lookup_middle in Hz by done. by simplify_eq.
        -- apply lookup_lt_Some in Hz. rewrite length_app in Hz. simpl in Hz. lia.
Qed.

Lemma last_at_nil {A : Type} (P : A -> Prop) (r : nat) : ~ last_at P [] r.
Proof. intros [(x & Hx & _) _]. by rewrite lookup_nil in Hx. Qed.

Section Trace.
Variable Generate : string -> Z.
Variable from_xml : Element -> result Shader.

Lemma load_alias_loop (node : Element) (bn : option string) (st : ShaderManager)
    (elems : list Element) :
  for_each (load_alias Generate from_xml node bn) st elems =
  for_each (register Generate from_xml node bn) st (omap text elems).
Proof.
  revert st. induction elems as [|e elems IH]; intros st; [reflexivity |].
  cbn [for_each omap list_omap].
  change (load_alias Generate from_xml node bn st e)
    with (match text e with
          | None => OK st
          | Some filename => register Generate from_xml node bn st filename
          end).
  destruct (text e) as [f |]; simpl.
  - destruct (register _ _ _ _ _ _); simpl; [apply IH | reflexivity].
  - apply IH.
Qed.

Lemma load_node_eq (st : ShaderManager) (node : Element) :
  load_node Generate from_xml st node =
  match ET.find "Name" node with
  | None => Raise AttributeError
  | Some _ =>
      for_each (register_pair Generate from_xml) st (map (pair node) (aliases node))
  end.
Proof.
  unfold load_node. destruct (ET.find "Name" node) as [e |] eqn:E; [| reflexivity].
  rewrite load_alias_loop, for_each_map. unfold register_pair, aliases, alias_elements.
  simpl. by rewrite E.
Qed.

Lemma load_nodes_named (st st' : ShaderManager) (nodes : list Element) :
  for_each (load_node Generate from_xml) st nodes = OK st' ->
  Forall (fun node => is_Some (ET.find "Name" node)) nodes.
Proof.
  revert st. induction nodes as [|node nodes IH]; intros st H; [constructor |].
  simpl in H. destruct (load_node _ _ st node) as [st1 | e] eqn:E; [| discriminate].
  constructor; [| by eapply IH].
  rewrite load_node_eq in E. destruct (ET.find "Name" node); [eauto | discriminate].
Qed.

Lemma load_nodes_flat (st : ShaderManager) (nodes : list Element) :
  Forall (fun node => is_Some (ET.find "Name" node)) nodes ->
  for_each (load_node Generate from_xml) st nodes =
  for_each (register_pair Generate from_xml) st
    (flat_map (fun node => map (pair node) (aliases node)) nodes).
Proof.
  intros Hall. revert st. induction Hall as [|node nodes [e He] _ IH]; intros st;
    [reflexivity |].
  cbn [for_each flat_map]. rewrite for_each_app, load_node_eq, He.
  destruct (for_each _ st (map _ _)); simpl; [apply IH | reflexivity].
Qed.

(** A successful load is the run of [register_pair] over the
    registrations of the document. *)
Lemma load_shaders_trace (root : Element) (st0 st : ShaderManager) :
  load_shaders Generate from_xml root st0 = OK st ->
  for_each (register_pair Generate from_xml) st0 (registrations root) = OK st.
Proof.
  intros H. unfold load_shaders in H.
  rewrite load_nodes_flat in H; [exact H | by eapply load_nodes_named].
Qed.

End Trace.

(** ** The tables after a load *)

Section Catalogue.
Variable Generate : string -> Z.
Variable from_xml : Element -> result Shader.

Lemma trace_inv_init : trace_inv Generate from_xml [] ShaderManager_init.
Proof.
  split; simpl.
  - reflexivity.
  - intros i node a H. by rewrite lookup_nil in H.
  - intros i. rewrite lookup_empty. by destruct i.
  - intros f r. rewrite lookup_empty. split; [discriminate |].
    intros H. by apply last_at_nil in H.
  - intros h r. rewrite lookup_empty. split; [discriminate |].
    intros H. by apply last_at_nil in H.
Qed.

Lemma trace_inv_register (regs : list (Element * string)) (reg : Element * string)
    (st st' : ShaderManager) :
  trace_inv Generate from_xml regs st ->
  register_pair Generate from_xml st reg = OK st' ->
  trace_inv Generate from_xml (regs ++ [reg]) st'.
Proof.
  intros [Hlen Hobj Hbn Hsh Hbh] Hreg. destruct reg as [node a].
  unfold register_pair, register in Hreg. simpl in Hreg.
  destruct (from_xml node) as [sh | e] eqn:EF; simpl in Hreg; [| discriminate].
  injection Hreg as <-. split; simpl.
  - rewrite !length_app, Hlen. reflexivity.
  - intros i node' a' Hi.
    destruct (Nat.lt_total i (length regs)) as [Hlt | [-> | Hgt]].
    + rewrite lookup_app_l in Hi by done.
      destruct (Hobj i node' a' Hi) as (sh' & ? & ?). exists sh'. split; [done |].
      rewrite lookup_app_l; [done | lia].
    + rewrite list_lookup_middle in Hi by done. simplify_eq.
      exists sh. split; [done |]. by rewrite list_lookup_middle.
    + apply lookup_lt_Some in Hi. rewrite length_app in Hi. simpl in Hi. lia.
  - intros i. rewrite lookup_insert, Hlen. case_decide as Hi.
    + subst i. by rewrite list_lookup_middle.
    + rewrite Hbn.
      destruct (Nat.lt_total i (length regs)) as [Hlt | [-> | Hgt]]; [| done |].
      * by rewrite lookup_app_l.
      * rewrite !lookup_ge_None_2; [done | | lia].
        rewrite length_app. simpl. lia.
  - intros f r. rewrite lookup_insert_Some, last_at_snoc, Hsh, Hlen. simpl.
    split; (intros [[? ?] | [? ?]]; [left | right]; by split).
  - intros h r. rewrite lookup_insert_Some, last_at_snoc, Hbh, Hlen. simpl.
    split; (intros [[? ?] | [? ?]]; [left | right]; by split).
Qed.

Lemma trace_inv_run (regs : list (Element * string)) (st : ShaderManager) :
  for_each (register_pair Generate from_xml) ShaderManager_init regs = OK st ->
  trace_inv Generate from_xml regs st.
Proof.
  revert st. induction regs as [|reg regs IH] using rev_ind; intros st H.
  - injection H as <-. apply trace_inv_init.
  - rewrite for_each_app in H.
    destruct (for_each _ ShaderManager_init regs) as [st1 | e]; [| discriminate].
    simpl in H.
    destruct (register_pair Generate from_xml st1 reg) as [st2 | e] eqn:E;
      [| discriminate].
    injection H as <-. eapply trace_inv_register; [by apply IH | done].
Qed.

(** The tables after the module has loaded the document [root]. *)
Lemma load_shaders_inv (root : Element) (st : ShaderManager) :
  load_shaders Generate from_xml root ShaderManager_init = OK st ->
  trace_inv Generate from_xml (registrations root) st.
Proof. intros H. by apply trace_inv_run, load_shaders_trace. Qed.

End Catalogue.

(** ** [find_shader] and [find_shader_base_name] *)

Lemma startswith_hash (x : string) : PyStr.startswith ("hash_" +:+ x) "hash_" = true.
Proof.
  unfold PyStr.startswith. rewrite !append_cons, append_nil_l. simpl.
  by destruct x.
Qed.

Lemma slice_from_hash (x : string) : PyStr.slice_from 5 ("hash_" +:+ x) = x.
Proof. by rewrite !append_cons, append_nil_l. Qed.

Lemma find_shader_registered (st : ShaderManager) (filename : string) (r : nat) :
  _shaders st !! filename = Some r -> find_shader st filename = OK (Some r).
Proof. intros H. unfold find_shader. by rewrite H. Qed.

Lemma find_shader_token (st : ShaderManager) (x : string) :
  _shaders st !! ("hash_" +:+ x) = None ->
  find_shader st ("hash_" +:+ x) =
  (filename_hash ← PyStr.int x 16; OK (_shaders_by_hash st !! filename_hash)).
Proof.
  intros H. unfold find_shader. by rewrite H, startswith_hash, slice_from_hash.
Qed.

Lemma find_shader_Some (st : ShaderManager) (s : string) (r : nat) :
  find_shader st s = OK (Some r) ->
  _shaders st !! s = Some r \/ exists h, _shaders_by_hash st !! h = Some r.
Proof.
  unfold find_shader. destruct (_shaders st !! s) as [r' |] eqn:E.
  - intros [= ->]. by left.
  - destruct (PyStr.startswith s "hash_"); [| discriminate].
    destruct (PyStr.int _ 16) as [h |]; simpl; [| discriminate].
    intros [= H]. right. eauto.
Qed.

(** C1, amended. For a string that is no registered file name,
    [find_shader] returns [None] when the string does not start with
    "hash_"; when it is "hash_" followed by a suffix that [int] accepts in
    base 16, it returns the entry of the by-hash table for that number,
    [None] when there is none; when the suffix is not accepted, it raises
    [ValueError]. *)
Theorem find_shader_unregistered (st : ShaderManager) (filename : string) :
  _shaders st !! filename = None ->
  (PyStr.startswith filename "hash_" = false -> find_shader st filename = OK None) /\
  (forall x, filename = "hash_" +:+ x ->
     (forall h, PyStr.int x 16 = OK h ->
        find_shader st filename = OK (_shaders_by_hash st !! h)) /\
     (forall e, PyStr.int x 16 = Raise e ->
        find_shader st filename = Raise ValueError)).
Proof.
  intros Hnone. split.
  - intros Hp. unfold find_shader. by rewrite Hnone, Hp.
  - intros x ->. rewrite (find_shader_token st x Hnone). split.
    + intros h ->. reflexivity.
    + intros e He. rewrite He. simpl. by rewrite (int_raises_ValueError _ _ _ He).
Qed.

Section Lookups.
Variable Generate : string -> Z.
Variable from_xml : Element -> result Shader.

Lemma registrations_elem (root : Element) (node : Element) (a : string) :
  (node, a) ∈ registrations root <-> node ∈ children root /\ a ∈ aliases node.
Proof.
  unfold registrations. rewrite !list_elem_of_In, in_flat_map. split.
  - intros (n & Hn & Hin). by apply in_map_iff in Hin as (a' & [= -> ->] & Ha).
  - intros [Hn Ha]. exists node. split; [done |]. apply in_map_iff. eauto.
Qed.

Lemma table_ref_registered (root : Element) (st : ShaderManager) (r : nat) :
  load_shaders Generate from_xml root ShaderManager_init = OK st ->
  (exists f, _shaders st !! f = Some r) \/ (exists h, _shaders_by_hash st !! h = Some r) ->
  exists node a,
    registrations root !! r = Some (node, a) /\
    _shaders_base_names st !! r = Some (display_name node).
Proof.
  intros Hload Hr. pose proof (load_shaders_inv _ _ _ _ Hload) as [_ _ Hbn Hsh Hbh].
  assert (exists reg, registrations root !! r = Some reg) as [[node a] Hreg].
  { destruct Hr as [[f Hf] | [h Hh]].
    - apply Hsh in Hf as [(reg & ? & _) _]. eauto.
    - apply Hbh in Hh as [(reg & ? & _) _]. eauto. }
  exists node, a. split; [done |]. by rewrite Hbn, Hreg.
Qed.

(** C8. After the load, every reference held by the file-name table or
    by the hash table is a key of the base-name table; so the base-name
    lookup of [find_shader_base_name] never misses its key. *)
Theorem base_names_cover_tables (root : Element) (st : ShaderManager) :
  load_shaders Generate from_xml root ShaderManager_init = OK st ->
  (forall f r, _shaders st !! f = Some r -> is_Some (_shaders_base_names st !! r)) /\
  (forall h r, _shaders_by_hash st !! h = Some r ->
               is_Some (_shaders_base_names st !! r)) /\
  (forall s r, find_shader st s = OK (Some r) ->
               exists base_name, find_shader_base_name st s = OK base_name) /\
  (forall s, find_shader_base_name st s <> Raise KeyError).
Proof.
  intros Hload.
  assert (Hf : forall f r, _shaders st !! f = Some r ->
                           is_Some (_shaders_base_names st !! r)).
  { intros f r H. destruct (table_ref_registered root st r Hload) as (? & ? & _ & ->);
      eauto. }
  assert (Hh : forall h r, _shaders_by_hash st !! h = Some r ->
                           is_Some (_shaders_base_names st !! r)).
  { intros h r H. destruct (table_ref_registered root st r Hload) as (? & ? & _ & ->);
      eauto. }
  assert (Hs : forall s r, find_shader st s = OK (Some r) ->
                           exists base_name, find_shader_base_name st s = OK base_name).
  { intros s r H. unfold find_shader_base_name. rewrite H. simpl.
    apply find_shader_Some in H as [H | [h H]].
    - destruct (Hf _ _ H) as [bn ->]. eauto.
    - destruct (Hh _ _ H) as [bn ->]. eauto. }
  repeat split; [done | done | done |].
  intros s Hkey. unfold find_shader_base_name in Hkey.
  destruct (find_shader st s) as [[r |] | e] eqn:E; simpl in Hkey.
  - destruct (Hs s r E) as [bn Hbn]. unfold find_shader_base_name in Hbn.
    rewrite E in Hbn. simpl in Hbn. congruence.
  - discriminate.
  - unfold find_shader in E. destruct (_shaders st !! s); [discriminate |].
    destruct (PyStr.startswith s "hash_"); [| discriminate].
    destruct (PyStr.int _ 16) eqn:Ei; [discriminate |].
    apply int_raises_ValueError in Ei. simpl in E. congruence.
Qed.

(** C5, amended. After the load, [find_shader_base_name s] returns
    [None] whenever [find_shader s] does and raises whenever it does;
    when [find_shader s] returns a shader, that shader was built for some
    alias of some entry of the document, and the result is the text of
    the [Name] child of that entry, itself [None] when the child has no
    text. *)
Theorem find_shader_base_name_spec (root : Element) (st : ShaderManager) (s : string) :
  load_shaders Generate from_xml root ShaderManager_init = OK st ->
  match find_shader st s with
  | OK None => find_shader_base_name st s = OK None
  | OK (Some r) =>
      exists node a sh,
        node ∈ children root /\ a ∈ aliases node /\
        registrations root !! r = Some (node, a) /\
        objects st !! r = Some sh /\ filename sh = a /\
        find_shader_base_name st s = OK (display_name node)
  | Raise e => find_shader_base_name st s = Raise e
  end.
Proof.
  intros Hload. unfold find_shader_base_name.
  destruct (find_shader st s) as [[r |] | e] eqn:E; simpl; [| done | done].
  destruct (table_ref_registered root st r Hload) as (node & a & Hreg & Hbn).
  { apply find_shader_Some in E as [H | H]; eauto. }
  pose proof (load_shaders_inv _ _ _ _ Hload) as [_ Hobj _ _ _].
  destruct (Hobj r node a Hreg) as (sh & _ & Hsh).
  exists node, a, (set_filename sh a). rewrite Hbn.
  assert ((node, a) ∈ registrations root) as [? ?]%registrations_elem
    by (by eapply list_elem_of_lookup_2).
  done.
Qed.

End Lookups.

(** ** Last occurrences *)

Lemma last_at_exists {A : Type} (P : A -> Prop) (l : list A) :
  (forall x, P x \/ ~ P x) ->
  (exists x, x ∈ l /\ P x) -> exists r, last_at P l r.
Proof.
  intros Hdec. induction l as [|y l IH] using rev_ind; intros (x & Hin & HP).
  - inversion Hin.
  - destruct (Hdec y) as [Hy | Hy].
    + exists (length l). apply last_at_snoc. by left.
    + apply elem_of_app in Hin as [Hin | Hin].
      * destruct IH as [r Hr]; [eauto |]. exists r. apply last_at_snoc. by right.
      * apply list_elem_of_singleton in Hin as ->. contradiction.
Qed.

Lemma last_at_app_l {A : Type} (P : A -> Prop) (l1 l2 : list A) (r : nat) :
  last_at P l1 r -> (forall x, x ∈ l2 -> ~ P x) -> last_at P (l1 ++ l2) r.
Proof.
  intros [(x & Hx & HP) Hlater] Hno. split.
  - exists x. split; [| done]. rewrite lookup_app_l; [done | by eapply lookup_lt_Some].
  - intros j y Hj Hy. apply lookup_app_Some in Hy as [Hy | [_ Hy]].
    + by eapply Hlater.
    + apply Hno. by eapply list_elem_of_lookup_2.
Qed.

Lemma last_at_app_r {A : Type} (P : A -> Prop) (l1 l2 : list A) (k : nat) :
  last_at P l2 k -> last_at P (l1 ++ l2) (length l1 + k).
Proof.
  intros [(x & Hx & HP) Hlater]. split.
  - exists x. split; [| done]. by rewrite lookup_app_r, Nat.add_comm, Nat.add_sub by lia.
  - intros j y Hj Hy. rewrite lookup_app_r in Hy by lia.
    apply (Hlater (j - length l1)%nat); [lia | done].
Qed.

(** ** The aliases of an entry *)

Section Aliases.
Variable Generate : string -> Z.
Variable from_xml : Element -> result Shader.

Lemma registrations_split (root : Element) (before after : list Element) (node : Element) :
  children root = before ++ node :: after ->
  registrations root =
  flat_map (fun n => map (pair n) (aliases n)) before ++
  map (pair node) (aliases node) ++
  flat_map (fun n => map (pair n) (aliases n)) after.
Proof.
  intros H. unfold registrations. rewrite H, flat_map_app. reflexivity.
Qed.

(** The last registration of an alias that no later entry lists belongs to
    the last entry listing it. *)
Lemma last_registration (root : Element) (before after : list Element) (node : Element)
    (a : string) :
  children root = before ++ node :: after ->
  a ∈ aliases node ->
  (forall node', node' ∈ after -> a ∉ aliases node') ->
  exists r, last_at (fun reg => snd reg = a) (registrations root) r /\
            registrations root !! r = Some (node, a).
Proof.
  intros Hsplit Ha Hafter.
  set (P := fun reg : Element * string => snd reg = a).
  destruct (last_at_exists P (map (pair node) (aliases node))) as [k Hk].
  { intros x. unfold P. destruct (decide (snd x = a)); eauto. }
  { exists (node, a). split; [| done]. apply list_elem_of_fmap. eauto. }
  pose proof Hk as [(x & Hx & HPx) _].
  assert (x = (node, a)) as ->.
  { apply list_elem_of_lookup_2, list_elem_of_fmap in Hx as (a' & -> & _).
    unfold P in HPx. simpl in HPx. by subst. }
  exists (length (flat_map (fun n => map (pair n) (aliases n)) before) + k)%nat.
  rewrite (registrations_split root before after node Hsplit). split.
  - apply last_at_app_r, last_at_app_l; [done |].
    intros [n a'] Hin%list_elem_of_In. apply in_flat_map in Hin as (n' & Hn' & Hin).
    apply in_map_iff in Hin as (a'' & [= -> ->] & Hin).
    unfold P. simpl. intros ->.
    by apply (Hafter n); apply list_elem_of_In.
  - rewrite lookup_app_r, Nat.add_comm, Nat.add_sub by lia.
    rewrite lookup_app_l; [done | by eapply lookup_lt_Some].
Qed.

(** C2, amended. After the load, for every entry [node] of the document
    and every alias [a] of it that no later entry lists: [find_shader a]
    returns the shader built for it, whose [filename] is [a] and whose
    [render_buckets], [layouts] and [parameters] are those of the parse of
    the whole entry, the same for every alias of the entry;
    [find_shader_base_name a] is the display name of the entry; and the load
    has built one [Shader] object per alias of the document. *)
Theorem load_shaders_alias (root : Element) (st : ShaderManager)
    (before after : list Element) (node : Element) (a : string) :
  load_shaders Generate from_xml root ShaderManager_init = OK st ->
  children root = before ++ node :: after ->
  a ∈ aliases node ->
  (forall node', node' ∈ after -> a ∉ aliases node') ->
  exists r parsed shader,
    from_xml node = OK parsed /\
    find_shader st a = OK (Some r) /\
    objects st !! r = Some shader /\
    filename shader = a /\
    render_buckets shader = render_buckets parsed /\
    layouts shader = layouts parsed /\
    parameters shader = parameters parsed /\
    find_shader_base_name st a = OK (display_name node) /\
    length (objects st) = length (registrations root).
Proof.
  intros Hload Hsplit Ha Hafter.
  destruct (last_registration root before after node a Hsplit Ha Hafter)
    as (r & Hlast & Hreg).
  pose proof (load_shaders_inv _ _ _ _ Hload) as [Hlen Hobj Hbn Hsh _].
  destruct (Hobj r node a Hreg) as (parsed & Hparsed & Hshader).
  apply Hsh in Hlast.
  exists r, parsed, (set_filename parsed a).
  repeat split; try done.
  - by apply find_shader_registered.
  - unfold find_shader_base_name. rewrite (find_shader_registered _ _ _ Hlast).
    simpl. by rewrite Hbn, Hreg.
Qed.

End Aliases.

(** ** Hash tokens *)

Lemma to_digits_length (fuel : nat) (base n : Z) (k : nat) :
  2 <= base -> 0 <= n < base ^ Z.of_nat k -> (1 <= k)%nat ->
  (1 <= length (PyStr.to_digits (S fuel) base n) <= k)%nat.
Proof.
  intros Hb. revert n k. induction fuel as [|fuel IH]; intros n k Hn Hk.
  - simpl. destruct (n <? base); simpl; lia.
  - remember (S fuel) as fuel'. cbn [PyStr.to_digits].
    destruct (Z.ltb_spec n base) as [Hlt | Hge]; [simpl; lia |].
    destruct k as [|[|k]]; [lia | rewrite Z.pow_1_r in Hn; lia |].
    cbn [length]. subst fuel'.
    specialize (IH (n / base) (S k)). 
    assert (0 <= n / base < base ^ Z.of_nat (S k)) as Hdiv.
    { rewrite (Nat2Z.inj_succ (S k)), Z.pow_succ_r in Hn by lia.
      split; [apply Z.div_pos; lia | apply Z.div_lt_upper_bound; lia]. }
    specialize (IH Hdiv ltac:(lia)). lia.
Qed.

Lemma length_digits_string (ds : list Z) :
  String.length (PyStr.digits_string ds) = length ds.
Proof.
  unfold PyStr.digits_string. induction ds as [|d ds IH]; simpl; [reflexivity |].
  by rewrite IH.
Qed.

(** The rendering of a 32-bit number has eight characters. *)
Lemma length_format_08x (h : Z) :
  0 <= h < 2 ^ 32 -> String.length (PyStr.format_08x h) = 8%nat.
Proof.
  intros Hh. unfold PyStr.format_08x.
  destruct (Z.ltb_spec h 0) as [? | _]; [lia |].
  rewrite length_digits_string. unfold PyStr.zero_fill, PyStr.digits_of.
  rewrite length_app, repeat_length, length_rev.
  pose proof (to_digits_length (Z.to_nat (Z.log2 h)) 16 h 8 ltac:(lia)) as Hlen.
  change (16 ^ Z.of_nat 8) with (2 ^ 32) in Hlen. specialize (Hlen Hh ltac:(lia)).
  lia.
Qed.

Lemma u32_range (x : Z) : 0 <= u32 x < 2 ^ 32.
Proof.
  unfold u32. change 4294967295 with (Z.ones 32). rewrite Z.land_ones by lia.
  apply Z.mod_pos_bound. lia.
Qed.

Lemma jenkhash_Generate_range (s : string) : 0 <= jenkhash_Generate s < 2 ^ 32.
Proof. unfold jenkhash_Generate. apply u32_range. Qed.

Section HashTokens.
Variable Generate : string -> Z.
Variable from_xml : Element -> result Shader.

(** C3. After the load, let [f] be a registered file name with a 32-bit
    hash, [r] its shader, and let no later registration have an alias
    with the same hash.  If the token "hash_" followed by the eight
    hexadecimal digits of the hash is not itself a registered file name,
    [find_shader] of the token returns the same object [r] as
    [find_shader f]. *)
Theorem find_shader_hash_token (root : Element) (st : ShaderManager) (f : string)
    (r : nat) :
  load_shaders Generate from_xml root ShaderManager_init = OK st ->
  0 <= Generate f < 2 ^ 32 ->
  _shaders st !! f = Some r ->
  (forall j node a, (r < j)%nat -> registrations root !! j = Some (node, a) ->
                    Generate a <> Generate f) ->
  _shaders st !! ("hash_" +:+ PyStr.format_08x (Generate f)) = None ->
  String.length (PyStr.format_08x (Generate f)) = 8%nat /\
  find_shader st f = OK (Some r) /\
  find_shader st ("hash_" +:+ PyStr.format_08x (Generate f)) = OK (Some r).
Proof.
  intros Hload Hrange Hf Hlater Htoken.
  split; [by apply length_format_08x |].
  split; [by apply find_shader_registered |].
  rewrite (find_shader_token _ _ Htoken), int_format_08x by lia. simpl. f_equal.
  pose proof (load_shaders_inv _ _ _ _ Hload) as [_ _ _ Hsh Hbh].
  apply Hbh. apply Hsh in Hf as [([node a] & Hreg & Ha) _]. simpl in Ha. subst a.
  split.
  - exists (node, f). by split.
  - intros j [node' a'] Hj Hreg'. simpl. by eapply Hlater.
Qed.

(** Every key of the hash table is the hash of a registered alias. *)
Lemma by_hash_key (root : Element) (st : ShaderManager) (h : Z) (r : nat) :
  load_shaders Generate from_xml root ShaderManager_init = OK st ->
  _shaders_by_hash st !! h = Some r ->
  exists node a, registrations root !! r = Some (node, a) /\ Generate a = h.
Proof.
  intros Hload Hh. pose proof (load_shaders_inv _ _ _ _ Hload) as [_ _ _ _ Hbh].
  apply Hbh in Hh as [([node a] & Hreg & Ha) _]. eauto.
Qed.

(** C9. The suffix of a hash token is read by [int] in base 16 with no
    further check: upper-case digits, more than eight digits, white space
    around, a "0x" prefix and a sign are all accepted.  After the load, for
    every unregistered name "hash_" followed by a suffix that [int] accepts,
    [find_shader] returns the entry of the hash table for the number read;
    with 32-bit hashes, a number outside the 32-bit range gives [None]. *)
Theorem find_shader_token_suffix :
  (PyStr.int "B779A091" 16 = OK 3078201489 /\
   PyStr.int "00000b779a091" 16 = OK 3078201489 /\
   PyStr.int " b779a091 " 16 = OK 3078201489 /\
   PyStr.int "0xb779a091" 16 = OK 3078201489 /\
   PyStr.int "+b779a091" 16 = OK 3078201489 /\
   PyStr.int "-b779a091" 16 = OK (-3078201489) /\
   PyStr.int "1b779a091" 16 = OK 7373168785) /\
  (forall (root : Element) (st : ShaderManager) (x : string) (h : Z),
     (forall s, 0 <= Generate s < 2 ^ 32) ->
     load_shaders Generate from_xml root ShaderManager_init = OK st ->
     _shaders st !! ("hash_" +:+ x) = None ->
     PyStr.int x 16 = OK h ->
     find_shader st ("hash_" +:+ x) = OK (_shaders_by_hash st !! h) /\
     (~ 0 <= h < 2 ^ 32 -> find_shader st ("hash_" +:+ x) = OK None)).
Proof.
  split; [repeat split; vm_compute; reflexivity |].
  intros root st x h Hrange Hload Hnone Hint.
  rewrite (find_shader_token _ _ Hnone), Hint. simpl. split; [reflexivity |].
  intros Hout. f_equal.
  destruct (_shaders_by_hash st !! h) as [r |] eqn:E; [| reflexivity].
  destruct (by_hash_key root st h r Hload E) as (node & a & _ & <-).
  destruct Hout. apply Hrange.
Qed.

End HashTokens.

(** ** The alias elements of an entry *)

Lemma tl_iter (e : Element) : List.tl (ET.iter e) = flat_map ET.iter (children e).
Proof. by destruct e. Qed.

Lemma iter_head (e : Element) : In e (ET.iter e).
Proof. destruct e. by left. Qed.

Lemma below_iter (d e : Element) : below d e -> In d (List.tl (ET.iter e)).
Proof.
  induction 1 as [d e Hin | d c e Hin _ IH]; rewrite tl_iter; apply in_flat_map.
  - exists d. split; [done | apply iter_head].
  - exists c. split; [done |]. destruct c. right. exact IH.
Qed.

Lemma iter_below (e d : Element) : In d (List.tl (ET.iter e)) -> below d e.
Proof.
  revert d. induction e as [e IH] using Element_ind_children. intros d.
  rewrite tl_iter. intros (c & Hc & Hd)%in_flat_map.
  rewrite Forall_forall in IH. specialize (IH c ltac:(by apply list_elem_of_In) d).
  destruct c as [t a x tl cs]. destruct Hd as [<- | Hd].
  - by apply below_child.
  - eapply below_deeper; [exact Hc |]. apply IH. exact Hd.
Qed.

Lemma alias_elements_below (node d : Element) :
  d ∈ alias_elements node <->
  exists fn, fn ∈ children node /\ tag fn = "FileName" /\ below d fn.
Proof.
  unfold alias_elements, ET.findall_below_child, ET.select_descendant_any, ET.select_child.
  rewrite list_elem_of_In, in_flat_map. simpl. rewrite app_nil_r. split.
  - intros (fn & [Hfn Htag]%filter_In & Hd). exists fn.
    rewrite list_elem_of_In. apply String.eqb_eq in Htag. by split; [| split; [| apply iter_below]].
  - intros (fn & Hfn & Htag & Hd). exists fn. split; [| by apply below_iter].
    apply filter_In. split; [by apply list_elem_of_In | by apply String.eqb_eq].
Qed.

Lemma aliases_below (node : Element) (f : string) :
  f ∈ aliases node <->
  exists fn d, fn ∈ children node /\ tag fn = "FileName" /\ below d fn /\ text d = Some f.
Proof.
  unfold aliases. rewrite list_elem_of_omap. split.
  - intros (d & (fn & ? & ? & ?)%alias_elements_below & Ht). by exists fn, d.
  - intros (fn & d & ? & ? & ? & Ht). exists d. split; [| done].
    apply alias_elements_below. by exists fn.
Qed.

Lemma table_keys {K : Type} `{EqDecision K} (key : Element * string -> K)
    (regs : list (Element * string)) (lookup_key : K -> option nat) :
  (forall k r, lookup_key k = Some r <-> last_at (fun reg => key reg = k) regs r) ->
  forall k, is_Some (lookup_key k) <-> exists reg, reg ∈ regs /\ key reg = k.
Proof.
  intros Hinv k. split.
  - intros [r Hr]. apply Hinv in Hr as [(reg & Hreg & Hk) _]. exists reg.
    split; [by eapply list_elem_of_lookup_2 | done].
  - intros Hex. destruct (last_at_exists (fun reg => key reg = k) regs) as [r Hr].
    + intros x. destruct (decide (key x = k)); eauto.
    + exact Hex.
    + exists r. by apply Hinv.
Qed.

Lemma length_registrations (root : Element) :
  length (registrations root) =
  length (flat_map (fun node => omap text (alias_elements node)) (children root)).
Proof.
  unfold registrations. induction (children root) as [|n ns IH]; [reflexivity |].
  simpl. by rewrite !length_app, length_map, IH.
Qed.

Section AliasElements.
Variable Generate : string -> Z.
Variable from_xml : Element -> result Shader.

(** C10. The alias elements of an entry are the elements at any depth
    under a [FileName] child of the entry, whatever their tag.  The inner
    loop leaves the tables as they are, without error, on an element with
    no text.  After the load, the keys of the file-name table are exactly
    the texts of the alias elements that have one, the keys of the hash
    table are their hashes, and one object has been built per such
    element. *)
Theorem load_shaders_alias_elements :
  (forall node d,
     d ∈ alias_elements node <->
     exists fn, fn ∈ children node /\ tag fn = "FileName" /\ below d fn) /\
  (forall node base_name st d,
     text d = None -> load_alias Generate from_xml node base_name st d = OK st) /\
  (forall root st,
     load_shaders Generate from_xml root ShaderManager_init = OK st ->
     (forall f, is_Some (_shaders st !! f) <->
        exists node fn d, node ∈ children root /\ fn ∈ children node /\
          tag fn = "FileName" /\ below d fn /\ text d = Some f) /\
     (forall h, is_Some (_shaders_by_hash st !! h) <->
        exists node fn d f, node ∈ children root /\ fn ∈ children node /\
          tag fn = "FileName" /\ below d fn /\ text d = Some f /\ Generate f = h) /\
     length (objects st) =
     length (flat_map (fun node => omap text (alias_elements node)) (children root))).
Proof.
  split; [apply alias_elements_below |].
  split; [intros node bn st d Ht; unfold load_alias; by rewrite Ht |].
  intros root st Hload.
  pose proof (load_shaders_inv _ _ _ _ Hload) as [Hlen _ _ Hsh Hbh].
  split; [| split].
  - intros f. rewrite (table_keys snd (registrations root) (fun k => _shaders st !! k) Hsh).
    split.
    + intros ([node a] & [Hn Ha]%registrations_elem & <-). simpl.
      apply aliases_below in Ha as (fn & d & ? & ? & ? & ?). by exists node, fn, d.
    + intros (node & fn & d & Hn & ? & ? & ? & ?). exists (node, f).
      split; [| done]. apply registrations_elem. split; [done |].
      apply aliases_below. by exists fn, d.
  - intros h.
    rewrite (table_keys (fun reg => Generate (snd reg)) (registrations root)
               (fun k => _shaders_by_hash st !! k) Hbh).
    split.
    + intros ([node a] & [Hn Ha]%registrations_elem & <-). simpl.
      apply aliases_below in Ha as (fn & d & ? & ? & ? & ?). by exists node, fn, d, a.
    + intros (node & fn & d & f & Hn & ? & ? & ? & ? & <-). exists (node, f).
      split; [| done]. apply registrations_elem. split; [done |].
      apply aliases_below. by exists fn, d.
  - by rewrite Hlen, length_registrations.
Qed.

End AliasElements.

(** ** [strip] and [split] *)

Lemma lstrip_app_spaces (lead s : string) :
  all_space lead = true -> PyStr.lstrip (lead +:+ s) = PyStr.lstrip s.
Proof.
  induction lead as [|c lead IH]; [done |].
  intros [Hc Hl]%andb_true_iff. rewrite append_cons. cbn [PyStr.lstrip].
  rewrite Hc. by apply IH.
Qed.

Lemma lstrip_starts_nonspace (s : string) :
  starts_nonspace s = true -> PyStr.lstrip s = s.
Proof.
  destruct s as [|c s]; [done |]. simpl. by intros ->%negb_true_iff.
Qed.

Lemma rstrip_cons (c : ascii) (s : string) :
  PyStr.rstrip (String c s) =
  match PyStr.rstrip s with
  | EmptyString => if PyStr.isspace c then EmptyString else String c EmptyString
  | r => String c r
  end.
Proof. reflexivity. Qed.

Lemma rstrip_all_space (t : string) : all_space t = true -> PyStr.rstrip t = EmptyString.
Proof.
  induction t as [|c t IH]; [done |].
  intros [Hc Ht]%andb_true_iff. rewrite rstrip_cons, (IH Ht). by rewrite Hc.
Qed.

Lemma rstrip_app_spaces (s t : string) :
  all_space t = true -> PyStr.rstrip (s +:+ t) = PyStr.rstrip s.
Proof.
  intros Ht. induction s as [|c s IH]; [by apply rstrip_all_space |].
  by rewrite append_cons, !rstrip_cons, IH.
Qed.

Lemma rstrip_ends_nonspace (s : string) :
  ends_nonspace s = true -> PyStr.rstrip s = s.
Proof.
  induction s as [|c s IH]; [done |].
  destruct s as [|c' s].
  - simpl. by intros ->%negb_true_iff.
  - intros H. rewrite rstrip_cons, IH by exact H. reflexivity.
Qed.

Lemma strip_padded (lead body trail : string) :
  all_space lead = true -> all_space trail = true ->
  starts_nonspace body = true -> ends_nonspace body = true ->
  PyStr.strip (lead +:+ body +:+ trail) = body.
Proof.
  intros Hl Ht Hs He. unfold PyStr.strip.
  rewrite lstrip_app_spaces by done.
  rewrite lstrip_starts_nonspace.
  - rewrite rstrip_app_spaces by done. by apply rstrip_ends_nonspace.
  - destruct body; [done |]. by rewrite append_cons.
Qed.

Lemma ends_nonspace_app (a b : string) :
  b <> EmptyString -> ends_nonspace (a +:+ b) = ends_nonspace b.
Proof.
  intros Hb. induction a as [|c a IH]; [done |].
  rewrite append_cons. cbn [ends_nonspace].
  destruct (a +:+ b) eqn:E; [| exact IH].
  destruct a; [by rewrite append_nil_l in E | by rewrite append_cons in E].
Qed.

Lemma split_no_blank (s : string) : no_blank s = true -> PyStr.split " " s = [s].
Proof.
  induction s as [|c s IH]; [done |].
  intros [Hc Hs]%andb_true_iff. cbn [PyStr.split].
  apply negb_true_iff in Hc. rewrite Hc, IH by done. reflexivity.
Qed.

Lemma split_app_blank (x rest : string) :
  no_blank x = true ->
  PyStr.split " " (x +:+ " " +:+ rest) = x :: PyStr.split " " rest.
Proof.
  induction x as [|c x IH]; [done |].
  intros [Hc Hx]%andb_true_iff. rewrite append_cons. cbn [PyStr.split].
  apply negb_true_iff in Hc. rewrite Hc, IH by done. reflexivity.
Qed.

Lemma split_join (x : string) (xs : list string) :
  Forall (fun s => no_blank s = true) (x :: xs) ->
  PyStr.split " " (PyStr.join " " (x :: xs)) = x :: xs.
Proof.
  revert x. induction xs as [|y ys IH]; intros x Hall;
    inversion Hall as [|? ? Hx Hrest]; subst.
  - by apply split_no_blank.
  - change (PyStr.join " " (x :: y :: ys)) with (x +:+ " " +:+ PyStr.join " " (y :: ys)).
    rewrite split_app_blank by done. by rewrite IH.
Qed.

(** *** The shape of [str(z)] *)

Lemma digits_string_shape (d : Z) (ds : list Z) :
  Forall (fun x => 0 <= x < 16) (d :: ds) ->
  let s := PyStr.digits_string (d :: ds) in
  s <> EmptyString /\ no_blank s = true /\ starts_nonspace s = true /\ ends_nonspace s = true.
Proof.
  revert d. induction ds as [|d' ds IH]; intros d Hall;
    inversion Hall as [|? ? Hd Hrest]; subst;
    destruct (digit_char_props d Hd) as [_ _ Hsp _ _ Hbl _ _ _ _].
  - change (PyStr.digits_string [d]) with (String (PyStr.digit_char d) EmptyString).
    cbn zeta. split; [done |]. unfold no_blank.
    cbn [string_forallb starts_nonspace ends_nonspace]. by rewrite Hsp, Hbl.
  - destruct (IH d' Hrest) as (Hne & Hnb & _ & Hend).
    change (PyStr.digits_string (d :: d' :: ds))
      with (String (PyStr.digit_char d) (PyStr.digits_string (d' :: ds))).
    cbn zeta. split; [done |]. split; [| split].
    + unfold no_blank in *. cbn [string_forallb]. by rewrite Hbl, Hnb.
    + cbn [starts_nonspace]. by rewrite Hsp.
    + cbn [ends_nonspace].
      destruct (PyStr.digits_string (d' :: ds)) eqn:E; [done | exact Hend].
Qed.

Lemma str_int_shape (z : Z) :
  let s := PyStr.str_int z in
  no_blank s = true /\ starts_nonspace s = true /\ ends_nonspace s = true /\ s <> EmptyString.
Proof.
  unfold PyStr.str_int. destruct (z <? 0).
  - destruct (digits_of_cons 10 (- z)) as (d & ds & E). rewrite E.
    destruct (digits_string_shape d ds) as (Hne & Hnb & _ & Hend).
    { rewrite <- E. eapply Forall_impl; [apply (digits_of_range 10); lia |].
      simpl. lia. }
    cbn zeta. by split; [| split; [| split]].
  - destruct (digits_of_cons 10 z) as (d & ds & E). rewrite E.
    destruct (digits_string_shape d ds) as (Hne & Hnb & Hst & Hend); [| done].
    rewrite <- E. eapply Forall_impl; [apply (digits_of_range 10); lia |].
    simpl. lia.
Qed.

Lemma starts_nonspace_app (a b : string) :
  starts_nonspace a = true -> starts_nonspace (a +:+ b) = true.
Proof. destruct a; [done |]. by rewrite append_cons. Qed.

Lemma ends_nonspace_nonempty (s : string) : ends_nonspace s = true -> s <> EmptyString.
Proof. by destruct s. Qed.

Lemma join_shape (x : string) (xs : list string) :
  Forall (fun s => starts_nonspace s = true /\ ends_nonspace s = true) (x :: xs) ->
  starts_nonspace (PyStr.join " " (x :: xs)) = true /\
  ends_nonspace (PyStr.join " " (x :: xs)) = true.
Proof.
  revert x. induction xs as [|y ys IH]; intros x Hall;
    inversion Hall as [|? ? [Hs He] Hrest]; subst; [done |].
  destruct (IH y Hrest) as [_ Hend].
  change (PyStr.join " " (x :: y :: ys)) with (x +:+ " " +:+ PyStr.join " " (y :: ys)).
  split; [by apply starts_nonspace_app |].
  pose proof (ends_nonspace_nonempty _ Hend) as Hne.
  rewrite !ends_nonspace_app; [done | done |].
  by rewrite append_cons.
Qed.

(** ** [RenderBucketProperty] *)

Lemma render_bucket_items (zs acc : list Z) :
  Forall (fun n => (PyStr.decimal_digits n <= PyStr.int_max_str_digits)%nat) zs ->
  for_each (fun value item => n ← PyStr.int item 10; OK (value ++ [n])%list) acc
    (map PyStr.str_int zs) = OK (acc ++ zs)%list.
Proof.
  intros Hall. revert acc. induction Hall as [|z zs Hz _ IH]; intros acc.
  - simpl. by rewrite app_nil_r.
  - cbn [map for_each]. rewrite int_str_int by done. simpl.
    rewrite IH. by rewrite <- app_assoc.
Qed.

(** C4, amended. For a [RenderBucket] element whose text is a non-empty
    list of integers in decimal notation, each of at most 4300 digits, one
    blank between two neighbours, with white space of any kind before the
    first and after the last, [from_xml] returns these integers in the
    order of the text. *)
Theorem RenderBucketProperty_from_xml_blank_separated (element : Element)
    (lead trail : string) (z : Z) (zs : list Z) :
  text element = Some (lead +:+ PyStr.join " " (map PyStr.str_int (z :: zs)) +:+ trail) ->
  all_space lead = true ->
  all_space trail = true ->
  Forall (fun n => (PyStr.decimal_digits n <= PyStr.int_max_str_digits)%nat) (z :: zs) ->
  RenderBucketProperty_from_xml element = OK (z :: zs).
Proof.
  intros Htext Hlead Htrail Hdigits. unfold RenderBucketProperty_from_xml.
  rewrite Htext.
  destruct (join_shape (PyStr.str_int z) (map PyStr.str_int zs)) as [Hs He].
  { change (PyStr.str_int z :: map PyStr.str_int zs) with (map PyStr.str_int (z :: zs)).
    apply Forall_map, Forall_forall. intros n _.
    by destruct (str_int_shape n) as (_ & ? & ? & _). }
  change (PyStr.str_int z :: map PyStr.str_int zs)
    with (map PyStr.str_int (z :: zs)) in Hs, He.
  rewrite strip_padded by done.
  change (map PyStr.str_int (z :: zs)) with (PyStr.str_int z :: map PyStr.str_int zs).
  rewrite split_join.
  - change (PyStr.str_int z :: map PyStr.str_int zs) with (map PyStr.str_int (z :: zs)).
    by rewrite render_bucket_items.
  - change (PyStr.str_int z :: map PyStr.str_int zs) with (map PyStr.str_int (z :: zs)).
    apply Forall_map, Forall_forall. intros n _.
    by destruct (str_int_shape n) as (? & _).
Qed.

(** The write path never produces an element. *)
Lemma RenderBucketProperty_to_xml_no_element (tag_name : string) (value : list Z)
    (e : Element) :
  RenderBucketProperty_to_xml tag_name value <> OK (Some e).
Proof. by destruct value. Qed.

(** ** The claims on the sample documents *)

Example load_sample_documents :
  load_catalogue catalogue_standard = OK (loaded catalogue_standard) /\
  load_catalogue catalogue_shared_alias = OK (loaded catalogue_shared_alias) /\
  load_catalogue catalogue_unnamed = OK (loaded catalogue_unnamed) /\
  registrations catalogue_standard =
    [ (entry_standard, "std.sps"); (entry_standard, "std_alt.sps");
      (entry_glass, "glass.sps") ] /\
  _shaders (loaded catalogue_standard) !! "std.sps" = Some 0%nat /\
  _shaders (loaded catalogue_standard) !! "std_alt.sps" = Some 1%nat /\
  _shaders (loaded catalogue_standard) !! "glass.sps" = Some 2%nat /\
  _shaders_by_hash (loaded catalogue_standard) !! 4164319613 = Some 0%nat /\
  _shaders_by_hash (loaded catalogue_standard) !! 3368697081 = Some 1%nat /\
  _shaders_by_hash (loaded catalogue_standard) !! 3928756789 = Some 2%nat /\
  objects (loaded catalogue_shared_alias) =
    [ {| filename := "x.sps"; render_buckets := [1]; layouts := []; parameters := [] |};
      {| filename := "x.sps"; render_buckets := [2]; layouts := []; parameters := [] |} ].
Proof. repeat split; vm_compute; reflexivity. Qed.


(** On the loaded sample, a token with a suffix that is no hexadecimal
    number, or with no suffix, makes [find_shader] raise. *)
Lemma find_shader_malformed_token_raises :
  load_catalogue catalogue_standard = OK (loaded catalogue_standard) /\
  _shaders (loaded catalogue_standard) !! "hash_zz" = None /\
  find_shader (loaded catalogue_standard) "hash_zz" = Raise ValueError /\
  _shaders (loaded catalogue_standard) !! "hash_" = None /\
  find_shader (loaded catalogue_standard) "hash_" = Raise ValueError.
Proof. repeat split; vm_compute; reflexivity. Qed.

(** The three outcomes for an unregistered name, on the loaded sample. *)
Lemma find_shader_unregistered_witness :
  find_shader (loaded catalogue_standard) "missing.sps" = OK None /\
  find_shader (loaded catalogue_standard) "hash_ffffffff" = OK None /\
  find_shader (loaded catalogue_standard) "hash_c8ca3cf9" = OK (Some 1%nat) /\
  find_shader (loaded catalogue_standard) "hash_zz" = Raise ValueError.
Proof.
  split; [| split; [| split]].
  - assert (_shaders (loaded catalogue_standard) !! "missing.sps" = None) as Hnone
      by (vm_compute; reflexivity).
    destruct (find_shader_unregistered _ _ Hnone) as [Hplain _].
    apply Hplain. vm_compute. reflexivity.
  - assert (_shaders (loaded catalogue_standard) !! "hash_ffffffff" = None) as Hnone
      by (vm_compute; reflexivity).
    destruct (find_shader_unregistered _ _ Hnone) as [_ Htoken].
    destruct (Htoken "ffffffff" eq_refl) as [Hok _].
    rewrite (Hok 4294967295); vm_compute; reflexivity.
  - assert (_shaders (loaded catalogue_standard) !! "hash_c8ca3cf9" = None) as Hnone
      by (vm_compute; reflexivity).
    destruct (find_shader_unregistered _ _ Hnone) as [_ Htoken].
    destruct (Htoken "c8ca3cf9" eq_refl) as [Hok _].
    rewrite (Hok 3368697081); vm_compute; reflexivity.
  - assert (_shaders (loaded catalogue_standard) !! "hash_zz" = None) as Hnone
      by (vm_compute; reflexivity).
    destruct (find_shader_unregistered _ _ Hnone) as [_ Htoken].
    destruct (Htoken "zz" eq_refl) as [_ Hraise].
    apply (Hraise ValueError). vm_compute. reflexivity.
Defined.

(** Two entries list "x.sps": the lookup gives the shader of the second,
    with its display name and its render buckets. *)
Lemma shared_alias_later_entry_wins :
  load_catalogue catalogue_shared_alias = OK (loaded catalogue_shared_alias) /\
  children catalogue_shared_alias = [entry_A; entry_B] /\
  display_name entry_A = Some "A" /\
  aliases entry_A = ["x.sps"] /\
  (render_buckets <$> Shader_from_xml entry_A) = OK [1] /\
  find_shader (loaded catalogue_shared_alias) "x.sps" = OK (Some 1%nat) /\
  find_shader_base_name (loaded catalogue_shared_alias) "x.sps" = OK (Some "B") /\
  (render_buckets <$> objects (loaded catalogue_shared_alias) !! 1%nat) = Some [2].
Proof. repeat split; vm_compute; reflexivity. Qed.

(** The alias "std_alt.sps" of the first entry of the sample. *)
Lemma load_shaders_alias_witness :
  exists r parsed shader,
    Shader_from_xml entry_standard = OK parsed /\
    find_shader (loaded catalogue_standard) "std_alt.sps" = OK (Some r) /\
    objects (loaded catalogue_standard) !! r = Some shader /\
    filename shader = "std_alt.sps" /\
    render_buckets shader = render_buckets parsed /\
    layouts shader = layouts parsed /\
    parameters shader = parameters parsed /\
    find_shader_base_name (loaded catalogue_standard) "std_alt.sps"
      = OK (display_name entry_standard) /\
    length (objects (loaded catalogue_standard))
      = length (registrations catalogue_standard).
Proof.
  apply (load_shaders_alias jenkhash_Generate Shader_from_xml catalogue_standard
           (loaded catalogue_standard) [] [entry_glass] entry_standard "std_alt.sps").
  - vm_compute. reflexivity.
  - reflexivity.
  - apply list_elem_of_In. vm_compute. auto.
  - intros node' Hin%list_elem_of_singleton Ha%list_elem_of_In. subst node'.
    vm_compute in Ha. destruct Ha as [Ha | []]. discriminate Ha.
Defined.

(** The token of "std.sps" leads to the object of "std.sps". *)
Lemma find_shader_hash_token_witness :
  String.length (PyStr.format_08x (jenkhash_Generate "std.sps")) = 8%nat /\
  find_shader (loaded catalogue_standard) "std.sps" = OK (Some 0%nat) /\
  find_shader (loaded catalogue_standard)
    ("hash_" +:+ PyStr.format_08x (jenkhash_Generate "std.sps")) = OK (Some 0%nat).
Proof.
  apply (find_shader_hash_token jenkhash_Generate Shader_from_xml catalogue_standard
           (loaded catalogue_standard) "std.sps" 0%nat).
  - vm_compute. reflexivity.
  - apply jenkhash_Generate_range.
  - vm_compute. reflexivity.
  - intros j node a Hj Hreg.
    destruct j as [|[|[|j]]]; [lia | | |]; vm_compute in Hreg.
    + injection Hreg as _ <-. vm_compute. discriminate.
    + injection Hreg as _ <-. vm_compute. discriminate.
    + discriminate Hreg.
  - vm_compute. reflexivity.
Defined.

(** Two blanks, a tabulation or a line break between two integers make
    [from_xml] raise. *)
Lemma RenderBucketProperty_from_xml_other_separators :
  RenderBucketProperty_from_xml (leaf "RenderBucket" (Some "1  2")) = Raise ValueError /\
  RenderBucketProperty_from_xml (leaf "RenderBucket" (Some ("1" +:+ tab +:+ "2")))
    = Raise ValueError /\
  RenderBucketProperty_from_xml (leaf "RenderBucket" (Some ("1" +:+ newline +:+ "2")))
    = Raise ValueError.
Proof. repeat split; vm_compute; reflexivity. Qed.

(** Four integers, one blank apart, with white space around. *)
Lemma RenderBucketProperty_from_xml_blank_separated_witness :
  RenderBucketProperty_from_xml
    (leaf "RenderBucket" (Some (newline +:+ "  " +:+ "0 1 -12 300" +:+ tab)))
  = OK [0; 1; -12; 300].
Proof.
  apply (RenderBucketProperty_from_xml_blank_separated _ (newline +:+ "  ") tab 0 [1; -12; 300]).
  - vm_compute. reflexivity.
  - vm_compute. reflexivity.
  - vm_compute. reflexivity.
  - repeat match goal with
           | |- Forall _ _ => constructor
           | |- (_ <= _)%nat => apply Nat.leb_le; vm_compute; reflexivity
           end.
Defined.

(** An entry whose [Name] element has no text: its alias is found, its
    base name is [None]. *)
Lemma find_shader_base_name_unnamed_entry :
  load_catalogue catalogue_unnamed = OK (loaded catalogue_unnamed) /\
  find_shader (loaded catalogue_unnamed) "a.sps" = OK (Some 0%nat) /\
  find_shader_base_name (loaded catalogue_unnamed) "a.sps" = OK None.
Proof. repeat split; vm_compute; reflexivity. Qed.

(** The base name reached through a hash token, on the loaded sample. *)
Lemma find_shader_base_name_spec_witness :
  match find_shader (loaded catalogue_standard) "hash_c8ca3cf9" with
  | OK None => find_shader_base_name (loaded catalogue_standard) "hash_c8ca3cf9" = OK None
  | OK (Some r) =>
      exists node a sh,
        node ∈ children catalogue_standard /\ a ∈ aliases node /\
        registrations catalogue_standard !! r = Some (node, a) /\
        objects (loaded catalogue_standard) !! r = Some sh /\ filename sh = a /\
        find_shader_base_name (loaded catalogue_standard) "hash_c8ca3cf9"
          = OK (display_name node)
  | Raise e => find_shader_base_name (loaded catalogue_standard) "hash_c8ca3cf9" = Raise e
  end.
Proof.
  assert (load_shaders jenkhash_Generate Shader_from_xml catalogue_standard
            ShaderManager_init = OK (loaded catalogue_standard)) as Hload
    by (vm_compute; reflexivity).
  exact (find_shader_base_name_spec jenkhash_Generate Shader_from_xml catalogue_standard
           (loaded catalogue_standard) "hash_c8ca3cf9" Hload).
Defined.

(** The tables of the loaded sample are covered by its base names. *)
Lemma base_names_cover_tables_witness :
  (forall f r, _shaders (loaded catalogue_standard) !! f = Some r ->
               is_Some (_shaders_base_names (loaded catalogue_standard) !! r)) /\
  (forall h r, _shaders_by_hash (loaded catalogue_standard) !! h = Some r ->
               is_Some (_shaders_base_names (loaded catalogue_standard) !! r)) /\
  (forall s r, find_shader (loaded catalogue_standard) s = OK (Some r) ->
               exists base_name,
                 find_shader_base_name (loaded catalogue_standard) s = OK base_name) /\
  (forall s, find_shader_base_name (loaded catalogue_standard) s <> Raise KeyError).
Proof.
  assert (load_shaders jenkhash_Generate Shader_from_xml catalogue_standard
            ShaderManager_init = OK (loaded catalogue_standard)) as Hload
    by (vm_compute; reflexivity).
  exact (base_names_cover_tables jenkhash_Generate Shader_from_xml catalogue_standard
           (loaded catalogue_standard) Hload).
Defined.

(** An upper-case suffix with a prefix and a leading blank, and a
    nine-digit suffix, on the loaded sample. *)
Lemma find_shader_token_suffix_witness :
  find_shader (loaded catalogue_standard) "hash_ 0XC8CA3CF9"
    = OK (_shaders_by_hash (loaded catalogue_standard) !! 3368697081) /\
  _shaders_by_hash (loaded catalogue_standard) !! 3368697081 = Some 1%nat /\
  find_shader (loaded catalogue_standard) "hash_1c8ca3cf9" = OK None.
Proof.
  assert (load_shaders jenkhash_Generate Shader_from_xml catalogue_standard
            ShaderManager_init = OK (loaded catalogue_standard)) as Hload
    by (vm_compute; reflexivity).
  pose proof (proj2 (find_shader_token_suffix jenkhash_Generate Shader_from_xml)
                catalogue_standard (loaded catalogue_standard)) as Hsuffix.
  split; [| split].
  - assert (_shaders (loaded catalogue_standard) !! ("hash_" +:+ " 0XC8CA3CF9") = None)
      as Hnone by (vm_compute; reflexivity).
    assert (PyStr.int " 0XC8CA3CF9" 16 = OK 3368697081) as Hint
      by (vm_compute; reflexivity).
    exact (proj1 (Hsuffix " 0XC8CA3CF9" 3368697081 jenkhash_Generate_range Hload
                    Hnone Hint)).
  - vm_compute. reflexivity.
  - assert (_shaders (loaded catalogue_standard) !! ("hash_" +:+ "1c8ca3cf9") = None)
      as Hnone by (vm_compute; reflexivity).
    assert (PyStr.int "1c8ca3cf9" 16 = OK 7663664377) as Hint
      by (vm_compute; reflexivity).
    apply (proj2 (Hsuffix "1c8ca3cf9" 7663664377 jenkhash_Generate_range Hload
                    Hnone Hint)).
    lia.
Defined.

(** The keys of the tables of the loaded sample. *)
Lemma load_shaders_alias_elements_witness :
  (forall f, is_Some (_shaders (loaded catalogue_standard) !! f) <->
     exists node fn d, node ∈ children catalogue_standard /\ fn ∈ children node /\
       tag fn = "FileName" /\ below d fn /\ text d = Some f) /\
  (forall h, is_Some (_shaders_by_hash (loaded catalogue_standard) !! h) <->
     exists node fn d f, node ∈ children catalogue_standard /\ fn ∈ children node /\
       tag fn = "FileName" /\ below d fn /\ text d = Some f /\ jenkhash_Generate f = h) /\
  length (objects (loaded catalogue_standard)) =
  length (flat_map (fun node => omap text (alias_elements node))
            (children catalogue_standard)).
Proof.
  assert (load_shaders jenkhash_Generate Shader_from_xml catalogue_standard
            ShaderManager_init = OK (loaded catalogue_standard)) as Hload
    by (vm_compute; reflexivity).
  exact (proj2 (proj2 (load_shaders_alias_elements jenkhash_Generate Shader_from_xml))
           catalogue_standard (loaded catalogue_standard) Hload).
Defined.

Example alias_elements_standard :
  map (fun d => (tag d, text d)) (alias_elements entry_standard) =
  [ ("Item", Some "std.sps"); ("Item", None); ("Group", None);
    ("Alt", Some "std_alt.sps") ] /\
  aliases entry_standard = ["std.sps"; "std_alt.sps"] /\
  length (objects (loaded catalogue_standard)) = 3%nat.
Proof. repeat split; vm_compute; reflexivity. Qed.

(** * Further properties *)

(** ** [used_texcoords] *)

Lemma string_prefix_app (p s : string) :
  String.prefix p s = true <-> exists post, s = p +:+ post.
Proof.
  revert s. induction p as [|c p IH]; intros s.
  - split; [intros _; by exists s | intros _; by destruct s].
  - destruct s as [|c' s]; simpl.
    + split; [discriminate | intros (post & H)]. by rewrite append_cons in H.
    + destruct (Ascii.ascii_dec c c') as [<- | Hne].
      * rewrite IH. split; intros (post & H); exists post.
        -- by rewrite append_cons, H.
        -- rewrite append_cons in H. by injection H.
      * split; [discriminate | intros (post & H)].
        rewrite append_cons in H. injection H as Hc _. by subst.
Qed.

Lemma str_in_spec (needle s : string) :
  str_in needle s = true <-> exists pre post, s = pre +:+ needle +:+ post.
Proof.
  induction s as [|c s IH].
  - cbn [str_in]. rewrite orb_false_r, string_prefix_app. split.
    + intros (post & H). by exists EmptyString, post.
    + intros ([|c pre] & post & H); [by exists post |].
      by rewrite append_cons in H.
  - cbn [str_in]. rewrite orb_true_iff, string_prefix_app, IH. split.
    + intros [(post & H) | (pre & post & H)].
      * by exists EmptyString, post.
      * exists (String c pre), post. by rewrite append_cons, H.
    + intros ([|c' pre] & post & H).
      * left. by exists post.
      * right. rewrite append_cons in H. injection H as _ H. by exists pre, post.
Qed.

Lemma used_texcoords_fields_elem (fields : list string) (names : gset string)
    (x : string) :
  x ∈ used_texcoords_fields fields names <->
  x ∈ names \/ (x ∈ fields /\ str_in "TexCoord" x = true).
Proof.
  revert names. induction fields as [|f fields IH]; intros names; simpl.
  - split; [by left | intros [? | [H _]]; [done | inversion H]].
  - rewrite IH, elem_of_cons. destruct (str_in "TexCoord" f) eqn:E.
    + rewrite elem_of_union, elem_of_singleton. split.
      * intros [[-> | ?] | [? ?]]; eauto.
      * intros [? | [[-> | ?] ?]]; eauto.
    + split.
      * intros [? | [? ?]]; eauto.
      * intros [? | [[-> | ?] ?]]; eauto. congruence.
Qed.

Lemma used_texcoords_loop_elem (ls : list VertexLayoutList) (names : gset string)
    (x : string) :
  x ∈ used_texcoords_loop ls names <->
  x ∈ names \/
  (exists layout, layout ∈ ls /\ x ∈ value layout /\ str_in "TexCoord" x = true).
Proof.
  revert names. induction ls as [|l ls IH]; intros names; simpl.
  - split; [by left | intros [? | (l & H & _)]; [done | inversion H]].
  - rewrite IH, used_texcoords_fields_elem. split.
    + intros [[? | [? ?]] | (l' & ? & ? & ?)].
      * by left.
      * right. exists l. split; [left | done].
      * right. exists l'. split; [by right | done].
    + intros [? | (l' & Hin & ? & ?)]; [by left; left |].
      apply elem_of_cons in Hin as [-> | Hin].
      * left. by right.
      * right. by exists l'.
Qed.

(** X1. [used_texcoords] is the set of the field names, over all layouts
    of the shader, in which "TexCoord" occurs. *)
Theorem used_texcoords_spec (self : Shader) (x : string) :
  x ∈ used_texcoords self <->
  exists layout, layout ∈ layouts self /\ x ∈ value layout /\
    exists pre post, x = pre +:+ "TexCoord" +:+ post.
Proof.
  unfold used_texcoords. rewrite used_texcoords_loop_elem. split.
  - intros [H | (l & ? & ? & Hs)]; [by apply not_elem_of_empty in H |].
    exists l. by rewrite <- str_in_spec.
  - intros (l & ? & ? & Hs). right. exists l. by rewrite str_in_spec.
Qed.

Example used_texcoords_sample :
  used_texcoords shader_animated = {[ "TexCoord0"; "TexCoord1" ]} /\
  used_texcoords shader_position_normal = ∅ /\
  required_tangent shader_animated = true /\
  is_uv_animation_supported shader_animated = true.
Proof. repeat split; vm_compute; reflexivity. Qed.

(** X2. The three derived properties read the layouts and the parameters
    only: they are the same for two shaders that differ in [filename], and
    they do not depend on the order of the layouts or of the parameters. *)
Theorem derived_properties_invariant (sh1 sh2 : Shader) :
  (layouts sh1 ≡ₚ layouts sh2 ->
   required_tangent sh1 = required_tangent sh2 /\
   used_texcoords sh1 = used_texcoords sh2) /\
  (parameters sh1 ≡ₚ parameters sh2 ->
   is_uv_animation_supported sh1 = is_uv_animation_supported sh2).
Proof.
  split.
  - intros Hp. split.
    + apply eq_true_iff_eq. unfold required_tangent.
      rewrite !required_tangent_loop_true. by setoid_rewrite Hp.
    + apply set_eq. intros x. unfold used_texcoords.
      rewrite !used_texcoords_loop_elem. by setoid_rewrite Hp.
  - intros Hp. apply eq_true_iff_eq. unfold is_uv_animation_supported.
    rewrite !uv_animation_loop_flags. simpl.
    rewrite !andb_true_iff, !existsb_name. by setoid_rewrite Hp.
Qed.

Lemma derived_properties_invariant_witness :
  (required_tangent shader_animated = required_tangent shader_animated_renamed /\
   used_texcoords shader_animated = used_texcoords shader_animated_renamed) /\
  is_uv_animation_supported shader_animated
    = is_uv_animation_supported shader_animated_renamed.
Proof.
  split.
  - apply (proj1 (derived_properties_invariant shader_animated shader_animated_renamed)).
    apply perm_swap.
  - apply (proj2 (derived_properties_invariant shader_animated shader_animated_renamed)).
    apply perm_swap.
Defined.

(** ** More on [RenderBucketProperty] *)

Lemma split_length (c : ascii) (s : string) :
  length (PyStr.split c s) = S (count_char c s).
Proof.
  induction s as [|x s IH]; [reflexivity |].
  cbn [PyStr.split count_char]. destruct (Ascii.eqb x c).
  - simpl. by rewrite IH.
  - destruct (PyStr.split c s) as [|h t]; [discriminate IH | exact IH].
Qed.

Lemma render_bucket_loop_length (items : list string) (acc zs : list Z) :
  for_each (fun value item => n ← PyStr.int item 10; OK (value ++ [n])%list) acc items
    = OK zs ->
  length zs = (length acc + length items)%nat.
Proof.
  revert acc. induction items as [|item items IH]; intros acc H.
  - injection H as <-. simpl. lia.
  - cbn [for_each] in H. destruct (PyStr.int item 10) as [n | e]; [| discriminate].
    simpl in H. apply IH in H. rewrite length_app in H. simpl in *. lia.
Qed.

Lemma render_bucket_loop_error (items : list string) (acc : list Z) (e : exn) :
  for_each (fun value item => n ← PyStr.int item 10; OK (value ++ [n])%list) acc items
    = Raise e ->
  e = ValueError.
Proof.
  revert acc. induction items as [|item items IH]; intros acc H; [discriminate |].
  cbn [for_each] in H. destruct (PyStr.int item 10) as [n | e'] eqn:E.
  - simpl in H. by eapply IH.
  - simpl in H. injection H as <-. by eapply int_raises_ValueError.
Qed.

Lemma from_xml_OK_length (element : Element) (zs : list Z) :
  RenderBucketProperty_from_xml element = OK zs ->
  exists t, text element = Some t /\
            length zs = S (count_char " " (PyStr.strip t)).
Proof.
  unfold RenderBucketProperty_from_xml. destruct (text element) as [t |]; [| discriminate].
  intros H%render_bucket_loop_length. exists t. split; [done |].
  by rewrite H, split_length.
Qed.

Lemma lstrip_all_space (t : string) : all_space t = true -> PyStr.lstrip t = EmptyString.
Proof.
  induction t as [|c t IH]; [done |].
  intros [Hc Ht]%andb_true_iff. cbn [PyStr.lstrip]. rewrite Hc. by apply IH.
Qed.

(** X3. The errors of [from_xml]: an element without text raises
    [AttributeError]; a text that is empty or white space only raises
    [ValueError]; and there is no other way to fail than these two
    exceptions, the first one only without text. *)
Theorem RenderBucketProperty_from_xml_errors (element : Element) :
  (text element = None -> RenderBucketProperty_from_xml element = Raise AttributeError) /\
  (forall t, text element = Some t -> all_space t = true ->
             RenderBucketProperty_from_xml element = Raise ValueError) /\
  (forall e, RenderBucketProperty_from_xml element = Raise e ->
             (e = AttributeError /\ text element = None) \/
             (e = ValueError /\ is_Some (text element))).
Proof.
  unfold RenderBucketProperty_from_xml. split; [| split].
  - by intros ->.
  - intros t -> Ht. unfold PyStr.strip. by rewrite (lstrip_all_space t Ht).
  - intros e. destruct (text element) as [t |].
    + intros H%render_bucket_loop_error. right. eauto.
    + intros [= <-]. by left.
Qed.

Lemma RenderBucketProperty_from_xml_errors_witness :
  RenderBucketProperty_from_xml (leaf "RenderBucket" None) = Raise AttributeError /\
  RenderBucketProperty_from_xml (leaf "RenderBucket" (Some (newline +:+ "  ")))
    = Raise ValueError.
Proof.
  split.
  - by apply (proj1 (RenderBucketProperty_from_xml_errors (leaf "RenderBucket" None))).
  - apply (proj1 (proj2 (RenderBucketProperty_from_xml_errors
                           (leaf "RenderBucket" (Some (newline +:+ "  ")))))
             (newline +:+ "  ")).
    + reflexivity.
    + vm_compute. reflexivity.
Defined.

(** X4. A successful [from_xml] returns one integer more than there are
    blanks in the stripped text; in particular it never returns the empty
    list. *)
Theorem RenderBucketProperty_from_xml_length (element : Element) (zs : list Z) :
  RenderBucketProperty_from_xml element = OK zs ->
  zs <> [] /\
  exists t, text element = Some t /\
            length zs = S (count_char " " (PyStr.strip t)).
Proof.
  intros H. destruct (from_xml_OK_length element zs H) as (t & Ht & Hlen).
  split; [| by exists t]. intros ->. discriminate Hlen.
Qed.

Lemma RenderBucketProperty_from_xml_length_witness :
  [0; 1; -12] <> [] /\
  exists t, text (leaf "RenderBucket" (Some " 0 1 -12 ")) = Some t /\
            length [0; 1; -12] = S (count_char " " (PyStr.strip t)).
Proof.
  apply (RenderBucketProperty_from_xml_length (leaf "RenderBucket" (Some " 0 1 -12 "))).
  vm_compute. reflexivity.
Defined.

(** X5. What [from_xml] has read, [to_xml] cannot write: on the value of
    a successful [from_xml], [to_xml] raises [TypeError]. *)
Theorem RenderBucketProperty_to_xml_after_from_xml (element : Element) (zs : list Z)
    (tag_name : string) :
  RenderBucketProperty_from_xml element = OK zs ->
  RenderBucketProperty_to_xml tag_name zs = Raise TypeError.
Proof.
  intros H. destruct (from_xml_OK_length element zs H) as (t & _ & Hlen).
  destruct zs; [discriminate Hlen | reflexivity].
Qed.

Lemma RenderBucketProperty_to_xml_after_from_xml_witness :
  RenderBucketProperty_to_xml "RenderBucket" [0; 1] = Raise TypeError.
Proof.
  apply (RenderBucketProperty_to_xml_after_from_xml (leaf "RenderBucket" (Some "0 1"))).
  vm_compute. reflexivity.
Defined.

Lemma lstrip_app (t u : string) :
  PyStr.lstrip (t +:+ u) =
  if all_space t then PyStr.lstrip u else PyStr.lstrip t +:+ u.
Proof.
  induction t as [|c t IH]; [reflexivity |].
  rewrite append_cons. cbn [PyStr.lstrip]. unfold all_space in *. cbn [string_forallb].
  destruct (PyStr.isspace c); [exact IH | by rewrite append_cons].
Qed.

Lemma strip_padding (lead t trail : string) :
  all_space lead = true -> all_space trail = true ->
  PyStr.strip (lead +:+ t +:+ trail) = PyStr.strip t.
Proof.
  intros Hl Ht. unfold PyStr.strip. rewrite lstrip_app, Hl, lstrip_app.
  destruct (all_space t) eqn:E.
  - by rewrite (lstrip_all_space trail Ht), (lstrip_all_space t E).
  - by apply rstrip_app_spaces.
Qed.

(** X6. White space before and after the text of the element changes
    nothing: [from_xml] gives the same result, or the same exception, as on
    the text without it. *)
Theorem RenderBucketProperty_from_xml_padding (e1 e2 : Element) (lead t trail : string) :
  text e1 = Some (lead +:+ t +:+ trail) ->
  text e2 = Some t ->
  all_space lead = true -> all_space trail = true ->
  RenderBucketProperty_from_xml e1 = RenderBucketProperty_from_xml e2.
Proof.
  intros H1 H2 Hl Ht. unfold RenderBucketProperty_from_xml.
  by rewrite H1, H2, strip_padding.
Qed.

Lemma RenderBucketProperty_from_xml_padding_witness :
  RenderBucketProperty_from_xml (leaf "RenderBucket" (Some (newline +:+ "3 x" +:+ tab)))
  = RenderBucketProperty_from_xml (leaf "RenderBucket" (Some "3 x")).
Proof.
  apply (RenderBucketProperty_from_xml_padding _ _ newline "3 x" tab);
    vm_compute; reflexivity.
Defined.

(** ** More on [load_shaders] *)

Section LoadOutcome.
Variable Generate : string -> Z.
Variable from_xml : Element -> result Shader.

Lemma register_pair_OK (st : ShaderManager) (reg : Element * string) (sh : Shader) :
  from_xml (fst reg) = OK sh ->
  register_pair Generate from_xml st reg =
  OK {| _shaders := <[snd reg := length (objects st)]> (_shaders st);
        _shaders_by_hash := <[Generate (snd reg) := length (objects st)]> (_shaders_by_hash st);
        _shaders_base_names :=
          <[length (objects st) := display_name (fst reg)]> (_shaders_base_names st);
        objects := objects st ++ [set_filename sh (snd reg)] |}.
Proof. intros H. unfold register_pair, register. by rewrite H. Qed.

Lemma register_pair_Raise (st : ShaderManager) (reg : Element * string) (e : exn) :
  from_xml (fst reg) = Raise e -> register_pair Generate from_xml st reg = Raise e.
Proof. intros H. unfold register_pair, register. by rewrite H. Qed.

Lemma register_run_OK (regs : list (Element * string)) (st : ShaderManager) :
  Forall (fun reg => exists sh, from_xml (fst reg) = OK sh) regs ->
  exists st', for_each (register_pair Generate from_xml) st regs = OK st'.
Proof.
  intros Hall. revert st. induction Hall as [|reg regs [sh Hsh] _ IH]; intros st.
  - by exists st.
  - cbn [for_each]. rewrite (register_pair_OK st reg sh Hsh). simpl. apply IH.
Qed.

Lemma register_run_parsed (regs : list (Element * string)) (st st' : ShaderManager) :
  for_each (register_pair Generate from_xml) st regs = OK st' ->
  Forall (fun reg => exists sh, from_xml (fst reg) = OK sh) regs.
Proof.
  revert st. induction regs as [|reg regs IH]; intros st H; [constructor |].
  cbn [for_each] in H. destruct (from_xml (fst reg)) as [sh | e] eqn:E.
  - rewrite (register_pair_OK st reg sh E) in H. simpl in H.
    constructor; [eauto | by eapply IH].
  - by rewrite (register_pair_Raise st reg e E) in H.
Qed.

Lemma registrations_Forall (root : Element) (P : Element -> Prop) :
  Forall (fun reg => P (fst reg)) (registrations root) <->
  Forall (fun node => aliases node <> [] -> P node) (children root).
Proof.
  unfold registrations. induction (children root) as [|node nodes IH]; simpl.
  - split; constructor.
  - rewrite Forall_app, Forall_cons, IH. 
    assert (Forall (fun reg => P (fst reg)) (map (pair node) (aliases node)) <->
            (aliases node <> [] -> P node)) as ->; [| done].
    rewrite Forall_map. simpl. destruct (aliases node) as [|a al].
    + split; [done | constructor].
    + split.
      * intros H _. by inversion H.
      * intros H. apply Forall_forall. intros ? _. by apply H.
Qed.

(** X7. [load_shaders] succeeds exactly when every entry has a [Name]
    child and [Shader.from_xml] succeeds on every entry that has at least
    one alias; an entry without alias is never parsed. *)
Theorem load_shaders_succeeds_iff (root : Element) (st0 : ShaderManager) :
  (exists st, load_shaders Generate from_xml root st0 = OK st) <->
  Forall (fun node => is_Some (ET.find "Name" node)) (children root) /\
  Forall (fun node => aliases node <> [] -> exists sh, from_xml node = OK sh)
         (children root).
Proof.
  split.
  - intros [st H]. split; [by eapply load_nodes_named |].
    apply load_shaders_trace, register_run_parsed in H.
    by apply (registrations_Forall root (fun node => exists sh, from_xml node = OK sh)).
  - intros [Hnamed Hparsed]. unfold load_shaders.
    rewrite load_nodes_flat by done. apply register_run_OK.
    by apply (registrations_Forall root (fun node => exists sh, from_xml node = OK sh)).
Qed.

Lemma register_node_Raise (node : Element) (al : list string) (st : ShaderManager)
    (e : exn) :
  for_each (register_pair Generate from_xml) st (map (pair node) al) = Raise e ->
  al <> [] /\ from_xml node = Raise e.
Proof.
  revert st. induction al as [|a al IH]; intros st H; [discriminate |].
  split; [done |]. cbn [map for_each] in H.
  destruct (from_xml node) as [sh | e'] eqn:E.
  - rewrite (register_pair_OK st (node, a) sh E) in H. simpl in H.
    by destruct (IH _ H) as [_ ?].
  - rewrite (register_pair_Raise st (node, a) e' E) in H. simpl in H. congruence.
Qed.

(** X8. When [load_shaders] raises, either an entry has no [Name] child
    and the exception is [AttributeError], or the exception is the one
    raised by [Shader.from_xml] on an entry that has an alias. *)
Theorem load_shaders_errors (root : Element) (st0 : ShaderManager) (e : exn) :
  load_shaders Generate from_xml root st0 = Raise e ->
  (e = AttributeError /\ exists node, node ∈ children root /\ ET.find "Name" node = None) \/
  (exists node, node ∈ children root /\ aliases node <> [] /\ from_xml node = Raise e).
Proof.
  unfold load_shaders. revert st0.
  induction (children root) as [|node nodes IH]; intros st0 H; [discriminate |].
  cbn [for_each] in H. rewrite load_node_eq in H.
  destruct (ET.find "Name" node) as [name_elem |] eqn:En.
  - destruct (for_each _ st0 (map (pair node) (aliases node))) as [st1 | e1] eqn:E1.
    + simpl in H. destruct (IH st1 H) as [[-> (n & Hn & ?)] | (n & Hn & ? & ?)].
      * left. split; [done |]. exists n. split; [by right | done].
      * right. exists n. split; [by right | done].
    + simpl in H. injection H as ->. apply register_node_Raise in E1 as [? ?].
      right. exists node. split; [left | done].
  - simpl in H. injection H as <-. left. split; [done |].
    exists node. split; [left | done].
Qed.

End LoadOutcome.

Lemma load_shaders_succeeds_iff_witness :
  Forall (fun node => is_Some (ET.find "Name" node)) (children catalogue_unlisted) /\
  Forall (fun node => aliases node <> [] -> exists sh, Shader_from_xml node = OK sh)
         (children catalogue_unlisted).
Proof.
  apply (proj1 (load_shaders_succeeds_iff jenkhash_Generate Shader_from_xml
                  catalogue_unlisted ShaderManager_init)).
  exists (loaded catalogue_unlisted). vm_compute. reflexivity.
Defined.

Lemma load_shaders_errors_witness :
  (ValueError = AttributeError /\
   exists node, node ∈ children catalogue_bad_bucket /\ ET.find "Name" node = None) \/
  (exists node, node ∈ children catalogue_bad_bucket /\ aliases node <> [] /\
                Shader_from_xml node = Raise ValueError).
Proof.
  apply (load_shaders_errors jenkhash_Generate Shader_from_xml catalogue_bad_bucket
           ShaderManager_init ValueError).
  vm_compute. reflexivity.
Defined.

(** ** More on the tables after a load *)

Lemma startswith_slice (s : string) :
  PyStr.startswith s "hash_" = true -> s = "hash_" +:+ PyStr.slice_from 5 s.
Proof.
  unfold PyStr.startswith. intros (post & ->)%string_prefix_app.
  by rewrite slice_from_hash.
Qed.

Section LoadedTables.
Variable Generate : string -> Z.
Variable from_xml : Element -> result Shader.

Lemma registered_object (root : Element) (st : ShaderManager) (r : nat)
    (node : Element) (a : string) :
  load_shaders Generate from_xml root ShaderManager_init = OK st ->
  registrations root !! r = Some (node, a) ->
  exists parsed,
    from_xml node = OK parsed /\
    objects st !! r = Some (set_filename parsed a) /\
    _shaders_base_names st !! r = Some (display_name node) /\
    node ∈ children root /\ a ∈ aliases node.
Proof.
  intros Hload Hreg. pose proof (load_shaders_inv _ _ _ _ Hload) as [_ Hobj Hbn _ _].
  destruct (Hobj r node a Hreg) as (parsed & ? & ?). exists parsed.
  rewrite Hbn, Hreg.
  assert ((node, a) ∈ registrations root) as [? ?]%registrations_elem
    by (by eapply list_elem_of_lookup_2).
  done.
Qed.

(** X9. After the load, the object entered under a file name has this
    file name in its [filename] field, and two different file names never
    lead to the same object. *)
Theorem shaders_table_filename (root : Element) (st : ShaderManager) :
  load_shaders Generate from_xml root ShaderManager_init = OK st ->
  (forall f r, _shaders st !! f = Some r ->
     exists sh, objects st !! r = Some sh /\ filename sh = f) /\
  (forall f1 f2 r, _shaders st !! f1 = Some r -> _shaders st !! f2 = Some r -> f1 = f2).
Proof.
  intros Hload. pose proof (load_shaders_inv _ _ _ _ Hload) as [_ _ _ Hsh _]. split.
  - intros f r [([node a] & Hreg & Ha) _]%Hsh. simpl in Ha. subst a.
    destruct (registered_object root st r node f Hload Hreg) as (parsed & _ & ? & _).
    by exists (set_filename parsed f).
  - intros f1 f2 r [([n1 a1] & Hreg1 & Ha1) _]%Hsh [([n2 a2] & Hreg2 & Ha2) _]%Hsh.
    simpl in *. congruence.
Qed.

(** X10. After the load, whatever [find_shader] returns for a string is
    an object built by the load: either its [filename] is that string, or
    the string is "hash_" followed by a suffix that [int] reads in base 16
    as the hash of its [filename]. *)
Theorem find_shader_sound (root : Element) (st : ShaderManager) (s : string) (r : nat) :
  load_shaders Generate from_xml root ShaderManager_init = OK st ->
  find_shader st s = OK (Some r) ->
  exists sh, objects st !! r = Some sh /\
    (filename sh = s \/
     exists x, s = "hash_" +:+ x /\ PyStr.int x 16 = OK (Generate (filename sh))).
Proof.
  intros Hload Hfind. pose proof (load_shaders_inv _ _ _ _ Hload) as [_ _ _ Hsh Hbh].
  unfold find_shader in Hfind. destruct (_shaders st !! s) as [r' |] eqn:E.
  - injection Hfind as ->. apply Hsh in E as [([node a] & Hreg & Ha) _].
    simpl in Ha. subst a.
    destruct (registered_object root st r node s Hload Hreg) as (parsed & _ & ? & _).
    exists (set_filename parsed s). split; [done | by left].
  - destruct (PyStr.startswith s "hash_") eqn:Ep; [| discriminate].
    destruct (PyStr.int (PyStr.slice_from 5 s) 16) as [h |] eqn:Ei; [| discriminate].
    simpl in Hfind. injection Hfind as Hh.
    apply Hbh in Hh as [([node a] & Hreg & Ha) _]. simpl in Ha.
    destruct (registered_object root st r node a Hload Hreg) as (parsed & _ & ? & _).
    exists (set_filename parsed a). split; [done |]. right.
    exists (PyStr.slice_from 5 s). split; [by apply startswith_slice |].
    simpl. by rewrite Ha.
Qed.

(** X11. After the load, the two tables go together: the hash of every
    registered file name is a key of the hash table, every key of the hash
    table is the hash of a registered file name, and the object under a
    hash has a [filename] with this hash that is itself registered. *)
Theorem tables_consistent (root : Element) (st : ShaderManager) :
  load_shaders Generate from_xml root ShaderManager_init = OK st ->
  (forall f, is_Some (_shaders st !! f) -> is_Some (_shaders_by_hash st !! Generate f)) /\
  (forall h r, _shaders_by_hash st !! h = Some r ->
     exists sh, objects st !! r = Some sh /\ Generate (filename sh) = h /\
                is_Some (_shaders st !! filename sh)).
Proof.
  intros Hload. pose proof (load_shaders_inv _ _ _ _ Hload) as [_ _ _ Hsh Hbh].
  pose proof (table_keys snd (registrations root) (fun k => _shaders st !! k) Hsh)
    as Hkeys.
  pose proof (table_keys (fun reg => Generate (snd reg)) (registrations root)
                (fun k => _shaders_by_hash st !! k) Hbh) as Hhkeys.
  split.
  - intros f (reg & Hin & <-)%Hkeys. apply Hhkeys. by exists reg.
  - intros h r [([node a] & Hreg & Ha) _]%Hbh. simpl in Ha.
    destruct (registered_object root st r node a Hload Hreg) as (parsed & _ & ? & _).
    exists (set_filename parsed a). split; [done |]. split; [done |]. simpl.
    apply Hkeys. exists (node, a). split; [by eapply list_elem_of_lookup_2 | done].
Qed.


End LoadedTables.

Lemma shaders_table_filename_witness :
  (forall f r, _shaders (loaded catalogue_shared_alias) !! f = Some r ->
     exists sh, objects (loaded catalogue_shared_alias) !! r = Some sh /\ filename sh = f) /\
  (forall f1 f2 r, _shaders (loaded catalogue_shared_alias) !! f1 = Some r ->
                   _shaders (loaded catalogue_shared_alias) !! f2 = Some r -> f1 = f2).
Proof.
  apply (shaders_table_filename jenkhash_Generate Shader_from_xml catalogue_shared_alias).
  vm_compute. reflexivity.
Defined.

Lemma find_shader_sound_witness :
  exists sh, objects (loaded catalogue_standard) !! 1%nat = Some sh /\
    (filename sh = "hash_0xC8CA3CF9" \/
     exists x, "hash_0xC8CA3CF9" = "hash_" +:+ x /\
               PyStr.int x 16 = OK (jenkhash_Generate (filename sh))).
Proof.
  apply (find_shader_sound jenkhash_Generate Shader_from_xml catalogue_standard
           (loaded catalogue_standard) "hash_0xC8CA3CF9" 1%nat);
    vm_compute; reflexivity.
Defined.

Lemma tables_consistent_witness :
  (forall f, is_Some (_shaders (loaded catalogue_standard) !! f) ->
             is_Some (_shaders_by_hash (loaded catalogue_standard) !! jenkhash_Generate f)) /\
  (forall h r, _shaders_by_hash (loaded catalogue_standard) !! h = Some r ->
     exists sh, objects (loaded catalogue_standard) !! r = Some sh /\
                jenkhash_Generate (filename sh) = h /\
                is_Some (_shaders (loaded catalogue_standard) !! filename sh)).
Proof.
  apply (tables_consistent jenkhash_Generate Shader_from_xml catalogue_standard).
  vm_compute. reflexivity.
Defined.


(** ** A load on tables that are not empty *)

Lemma covered_no_KeyError (st : ShaderManager) (s : string) :
  covered st -> find_shader_base_name st s <> Raise KeyError.
Proof.
  intros [Hf Hh] Hkey. unfold find_shader_base_name in Hkey.
  destruct (find_shader st s) as [[r |] | e] eqn:E; simpl in Hkey.
  - assert (is_Some (_shaders_base_names st !! r)) as [bn Hbn].
    { apply find_shader_Some in E as [E | [h E]]; eauto. }
    by rewrite Hbn in Hkey.
  - discriminate.
  - unfold find_shader in E. destruct (_shaders st !! s); [discriminate |].
    destruct (PyStr.startswith s "hash_"); [| discriminate].
    destruct (PyStr.int _ 16) eqn:Ei; [discriminate |].
    apply int_raises_ValueError in Ei. simpl in E. congruence.
Qed.

Section Reload.
Variable Generate : string -> Z.
Variable from_xml : Element -> result Shader.

Lemma register_pair_keeps (st st' : ShaderManager) (reg : Element * string) :
  register_pair Generate from_xml st reg = OK st' ->
  objects st `prefix_of` objects st' /\
  (forall f, is_Some (_shaders st !! f) -> is_Some (_shaders st' !! f)) /\
  (forall h, is_Some (_shaders_by_hash st !! h) -> is_Some (_shaders_by_hash st' !! h)) /\
  (forall r, is_Some (_shaders_base_names st !! r) ->
             is_Some (_shaders_base_names st' !! r)) /\
  (covered st -> covered st').
Proof.
  intros H. destruct (from_xml (fst reg)) as [sh | e] eqn:E.
  - rewrite (register_pair_OK Generate from_xml st reg sh E) in H. injection H as <-.
    simpl. split; [by apply prefix_app_r |].
    split; [intros f Hf; apply lookup_insert_is_Some'; by right |].
    split; [intros h Hh; apply lookup_insert_is_Some'; by right |].
    split; [intros r Hr; apply lookup_insert_is_Some'; by right |].
    intros [Hf Hh]. split; simpl.
    + intros f r [[_ <-] | [_ Hr]]%lookup_insert_Some; apply lookup_insert_is_Some'.
      * by left.
      * right. by eapply Hf.
    + intros h r [[_ <-] | [_ Hr]]%lookup_insert_Some; apply lookup_insert_is_Some'.
      * by left.
      * right. by eapply Hh.
  - by rewrite (register_pair_Raise Generate from_xml st reg e E) in H.
Qed.

Lemma register_run_keeps (regs : list (Element * string)) (st st' : ShaderManager) :
  for_each (register_pair Generate from_xml) st regs = OK st' ->
  objects st `prefix_of` objects st' /\
  (forall f, is_Some (_shaders st !! f) -> is_Some (_shaders st' !! f)) /\
  (forall h, is_Some (_shaders_by_hash st !! h) -> is_Some (_shaders_by_hash st' !! h)) /\
  (forall r, is_Some (_shaders_base_names st !! r) ->
             is_Some (_shaders_base_names st' !! r)) /\
  (covered st -> covered st').
Proof.
  revert st. induction regs as [|reg regs IH]; intros st H.
  - injection H as <-. split; [reflexivity |]. by split; [| split; [| split]].
  - cbn [for_each] in H.
    destruct (register_pair Generate from_xml st reg) as [st1 | e] eqn:E; [| discriminate].
    simpl in H. apply register_pair_keeps in E as (Ho & Hf & Hh & Hb & Hc).
    apply IH in H as (Ho' & Hf' & Hh' & Hb' & Hc').
    split; [by etrans |]. split; [auto |]. split; [auto |]. split; [auto |].
    intros Hcov. by apply Hc', Hc.
Qed.

(** X13. A load on tables that already hold entries only adds to them:
    the objects built before stay where they are, no key of the three
    tables is lost, and if every reference of the lookup tables was a key
    of the base-name table before, it is so afterwards, so that
    [find_shader_base_name] still cannot raise [KeyError]. *)
Theorem load_shaders_keeps (root : Element) (st0 st : ShaderManager) :
  load_shaders Generate from_xml root st0 = OK st ->
  objects st0 `prefix_of` objects st /\
  (forall f, is_Some (_shaders st0 !! f) -> is_Some (_shaders st !! f)) /\
  (forall h, is_Some (_shaders_by_hash st0 !! h) -> is_Some (_shaders_by_hash st !! h)) /\
  (forall r, is_Some (_shaders_base_names st0 !! r) ->
             is_Some (_shaders_base_names st !! r)) /\
  (covered st0 ->
   covered st /\ forall s, find_shader_base_name st s <> Raise KeyError).
Proof.
  intros H%load_shaders_trace%register_run_keeps.
  destruct H as (Ho & Hf & Hh & Hb & Hc).
  split; [done |]. split; [done |]. split; [done |]. split; [done |].
  intros Hcov. split; [by apply Hc |].
  intros s. by apply covered_no_KeyError, Hc.
Qed.

End Reload.

Lemma loaded_covered (Generate : string -> Z) (from_xml : Element -> result Shader)
    (root : Element) (st : ShaderManager) :
  load_shaders Generate from_xml root ShaderManager_init = OK st -> covered st.
Proof.
  intros Hload. split.
  - intros f r H.
    destruct (table_ref_registered Generate from_xml root st r Hload) as (? & ? & _ & ->);
      eauto.
  - intros h r H.
    destruct (table_ref_registered Generate from_xml root st r Hload) as (? & ? & _ & ->);
      eauto.
Qed.

Lemma load_shaders_keeps_witness :
  exists st,
    load_shaders jenkhash_Generate Shader_from_xml catalogue_shared_alias
      (loaded catalogue_standard) = OK st /\
    objects (loaded catalogue_standard) `prefix_of` objects st /\
    length (objects st) = 5%nat /\
    is_Some (_shaders st !! "std.sps") /\
    forall s, find_shader_base_name st s <> Raise KeyError.
Proof.
  destruct (load_shaders jenkhash_Generate Shader_from_xml catalogue_shared_alias
              (loaded catalogue_standard)) as [st | e] eqn:E;
    [| vm_compute in E; discriminate E].
  exists st.
  destruct (load_shaders_keeps jenkhash_Generate Shader_from_xml catalogue_shared_alias
              (loaded catalogue_standard) st E) as (Ho & Hf & _ & _ & Hc).
  split; [reflexivity |]. split; [exact Ho |]. split.
  - vm_compute in E. injection E as <-. reflexivity.
  - split; [apply Hf; vm_compute; eauto |]. apply Hc.
    apply (loaded_covered jenkhash_Generate Shader_from_xml catalogue_standard).
    vm_compute. reflexivity.
Defined.

(** ** The classification tables *)

Ltac decide_by_compute :=
  match goal with
  | |- ?P => apply (bool_decide_unpack P); vm_compute; exact I
  end.

(** X14. Every name [cutout_shaders()] returns is among those
    [tinted_shaders()] returns, and a name is returned by
    [tinted_shaders()] exactly when it is in one of the eight tables it
    joins. *)
Theorem cutout_shaders_tinted (x : string) :
  (x ∈ cutout_shaders -> x ∈ tinted_shaders) /\
  (x ∈ tinted_shaders <->
   x ∈ cutouts \/ x ∈ alphas \/ x ∈ glasses \/ x ∈ decals \/ x ∈ veh_cutouts \/
   x ∈ veh_glasses \/ x ∈ veh_decals \/ x ∈ shadow_proxies) /\
  (x ∈ cutout_shaders <-> x ∈ cutouts \/ x ∈ veh_cutouts \/ x ∈ shadow_proxies).
Proof.
  unfold cutout_shaders, tinted_shaders. rewrite !elem_of_app. tauto.
Qed.

Lemma cutout_shaders_tinted_witness : "vehicle_badges.sps" ∈ tinted_shaders.
Proof.
  apply (proj1 (cutout_shaders_tinted "vehicle_badges.sps")).
  decide_by_compute.
Defined.

(** X15. The tables as they stand: [tinted_shaders()] returns 85 names
    without repetition and [cutout_shaders()] 23 of them; every mask-only
    terrain is a terrain; the names of [tint_flag_1] are cutouts; no
    terrain, no water shader and no name of [tint_flag_2] is tinted. *)
Theorem tables_consistency :
  NoDup tinted_shaders /\ length tinted_shaders = 85%nat /\
  length cutout_shaders = 23%nat /\
  Forall (fun x => x ∈ terrains) mask_only_terrains /\
  Forall (fun x => x ∈ cutouts) tint_flag_1 /\
  Forall (fun x => x ∉ tinted_shaders) (terrains ++ water_shaders ++ tint_flag_2).
Proof.
  repeat split; try reflexivity; decide_by_compute.
Qed.

